(** * CrewAgentExecutor: a shallow embedding of
      [src/crewai/agents/crew_agent_executor.py]

    The executor drives one agent through its think / act / observe loop.
    The embedding keeps the shape of the Python class: the attributes that
    never change after [__init__] form a [Config], the attributes the
    methods assign form the [Executor] state, and every method is a
    computation in a state-and-exception monad.  The collaborators the
    class imports (model client, parser, tool usage, message catalogue,
    training store policy) are fields of a [Collaborators] record. *)

From Stdlib Require Import ZArith Ascii DecimalString.
From stdpp Require Import base option list strings gmap.

(** ** Python [str] primitives

    Strings are modelled over the ASCII range: [casefold] lowers the
    letters A-Z and [strip] removes the ASCII white space characters that
    Python's [str.isspace] accepts. *)

Module PyStr.

Definition casefold_ascii (c : ascii) : ascii :=
  let n := nat_of_ascii c in
  if (65 <=? n) && (n <=? 90) then ascii_of_nat (n + 32) else c.

Fixpoint casefold (s : string) : string :=
  match s with
  | EmptyString => EmptyString
  | String c s' => String (casefold_ascii c) (casefold s')
  end.

(** [str.isspace] on one ASCII character: TAB, LF, VT, FF, CR,
    FS, GS, RS, US and the space. *)
Definition isspace (c : ascii) : bool :=
  let n := nat_of_ascii c in
  ((9 <=? n) && (n <=? 13)) || ((28 <=? n) && (n <=? 32)).

Fixpoint lstrip (s : string) : string :=
  match s with
  | EmptyString => EmptyString
  | String c s' => if isspace c then lstrip s' else s
  end.

Fixpoint rstrip (s : string) : string :=
  match s with
  | EmptyString => EmptyString
  | String c s' =>
      match rstrip s' with
      | EmptyString => if isspace c then EmptyString else String c EmptyString
      | r => String c r
      end
  end.

Definition strip (s : string) : string := rstrip (lstrip s).

(** [old in s] *)
Fixpoint contains (old s : string) : bool :=
  String.prefix old s ||
  match s with
  | EmptyString => false
  | String _ s' => contains old s'
  end.

(** [s.replace(old, new)], scanning left to right; [skip] counts the
    characters of a matched occurrence that are still to be dropped. *)
Fixpoint replace_go (old new : string) (skip : nat) (s : string) : string :=
  match s with
  | EmptyString => EmptyString
  | String c s' =>
      match skip with
      | S k => replace_go old new k s'
      | O =>
          if String.prefix old s
          then new +:+ replace_go old new (String.length old - 1) s'
          else String c (replace_go old new 0 s')
      end
  end.

Fixpoint intersperse_all (new s : string) : string :=
  match s with
  | EmptyString => new
  | String c s' => new +:+ String c (intersperse_all new s')
  end.

Definition replace (old new s : string) : string :=
  match old with
  | EmptyString => intersperse_all new s
  | _ => replace_go old new 0 s
  end.

(** [s.split(sep)[0]]: the text before the first occurrence of [sep],
    the whole of [s] when there is none. *)
Fixpoint split_head (sep s : string) : string :=
  if String.prefix sep s then EmptyString
  else match s with
       | EmptyString => EmptyString
       | String c s' => String c (split_head sep s')
       end.

(** [sep.join(l)] *)
Fixpoint join (sep : string) (l : list string) : string :=
  match l with
  | [] => EmptyString
  | [x] => x
  | x :: l' => x +:+ sep +:+ join sep l'
  end.

(** [range(start, stop, step)] for a positive step; at most [stop]
    values lie below [stop]. *)
Fixpoint range_go (fuel start stop step : nat) : list nat :=
  match fuel with
  | O => []
  | S fuel' =>
      if start <? stop then start :: range_go fuel' (start + step) stop step
      else []
  end.

Definition range (start stop step : nat) : list nat :=
  range_go stop start stop step.

(** [s[i:j]] for [0 <= i <= j]; the slice is clamped to the string. *)
Definition slice (s : string) (i j : nat) : string :=
  String.substring i (j - i) s.

(** A string of [n] copies of [c] ([c * n]). *)
Fixpoint times (c : ascii) (n : nat) : string :=
  match n with
  | O => EmptyString
  | S n' => String c (times c n')
  end.

End PyStr.

(** The line feed of ["\nObservation: "] and of the forced-answer notice. *)
Definition NL : string := String "010"%char EmptyString.

(** ** Data model *)

(** A message is the dict [{"role": ..., "content": ...}]. *)
Record Message := { role : string; content : string }.

(** [AgentAction]: the one value the loop mutates after the parser made it. *)
Record AgentAction := {
  tool : string;
  tool_input : string;
  text : string;
  result : option string
}.

Record AgentFinish := { output : string; final_text : string }.

Inductive AnswerValue :=
| Action (a : AgentAction)
| Finish (f : AgentFinish).

(** What [CrewAgentParser.parse] does with a model reply: it returns an
    answer value or raises [OutputParserException(error)]. *)
Inductive Parsed :=
| ParsedOk (v : AnswerValue)
| ParseError (error : string).

(** Python values that occur as crew attributes, input values and
    dictionary keys. *)
Inductive PyVal :=
| VNone
| VBool (b : bool)
| VInt (n : Z)
| VStr (s : string).

Definition PyVal_to_sum (v : PyVal) : unit + bool + Z + string :=
  match v with
  | VNone => inl (inl (inl tt))
  | VBool b => inl (inl (inr b))
  | VInt n => inl (inr n)
  | VStr s => inr s
  end.

Definition PyVal_of_sum (x : unit + bool + Z + string) : PyVal :=
  match x with
  | inl (inl (inl _)) => VNone
  | inl (inl (inr b)) => VBool b
  | inl (inr n) => VInt n
  | inr s => VStr s
  end.

#[global] Instance PyVal_eq_dec : EqDecision PyVal.
Proof. solve_decision. Defined.

#[global] Instance PyVal_countable : Countable PyVal.
Proof.
  apply (inj_countable' PyVal_to_sum PyVal_of_sum).
  intros []; reflexivity.
Defined.

(** [bool(v)] *)
Definition truthy (v : PyVal) : bool :=
  match v with
  | VNone => false
  | VBool b => b
  | VInt n => negb (n =? 0)%Z
  | VStr s => negb (String.eqb s EmptyString)
  end.

(** [isinstance(v, int)]; [bool] is a subclass of [int]. *)
Definition isinstance_int (v : PyVal) : bool :=
  match v with
  | VInt _ | VBool _ => true
  | _ => false
  end.

(** Dictionary keys compare by [==], under which [True == 1] and
    [False == 0]. *)
Definition key (v : PyVal) : PyVal :=
  match v with
  | VBool b => VInt (if b then 1 else 0)
  | _ => v
  end.

Definition Z_to_string (n : Z) : string :=
  NilZero.string_of_int (Z.to_int n).

Definition repr (v : PyVal) : string :=
  match v with
  | VNone => "None"
  | VBool true => "True"
  | VBool false => "False"
  | VInt n => Z_to_string n
  | VStr s => "'" +:+ s +:+ "'"
  end.

(** The exceptions the executor meets.  [Exception msg] stands for any
    other subclass of [Exception] whose [str] is [msg]; [SystemExit]
    derives from [BaseException] only. *)
Inductive PyExn :=
| OutputParserException (error : string)
| Exception (msg : string)
| KeyError (k : PyVal)
| TypeError (msg : string)
| AttributeError (msg : string)
| SystemExit (msg : string).

(** [isinstance(e, Exception)] *)
Definition is_Exception (e : PyExn) : bool :=
  match e with
  | SystemExit _ => false
  | _ => true
  end.

(** [str(e)] *)
Definition str_exn (e : PyExn) : string :=
  match e with
  | OutputParserException error => error
  | Exception msg => msg
  | KeyError k => repr k
  | TypeError msg => msg
  | AttributeError msg => msg
  | SystemExit msg => msg
  end.

Record Tool := { name : string }.

(** What [ToolUsage.parse] hands back when it is not an error value. *)
Record ToolCalling := { tool_name : string; arguments : string }.

Record Agent := { id : string; agent_role : string }.

(** [_train_iteration] is [None] when the crew object lacks the attribute. *)
Record Crew := { _train : bool; _train_iteration : option PyVal }.

(** One call of [LLM(...).call(messages)] with its [stop] argument. *)
Record LLMCall := { call_messages : list Message; call_stop : option (list string) }.

(** The training file: agent id, then iteration key, then record fields. *)
Abbreviation TrainingRecord := (gmap string string).
Abbreviation TrainingData := (gmap string (gmap PyVal TrainingRecord)).

(** ** Executor state

    The first four fields are the attributes the methods assign.  The
    others are the part of the outside world the methods act on: the
    calls made to the model, the tools used, the step callbacks fired,
    the lines logged, the rate-limit checks made, the prompts shown to
    the human, and the content of the training file. *)
Record Executor := {
  messages : list Message;
  iterations : Z;
  have_forced_answer : bool;
  ask_for_human_input : bool;
  llm_calls : list LLMCall;
  tool_uses : list (ToolCalling * string);
  step_callbacks : list AgentAction;
  logged : list (string * string);
  rpm_checks : nat;
  human_prompts : list string;
  training_file : TrainingData
}.

(** Attributes fixed by [__init__]. *)
Record Config := {
  prompt : gmap string string;
  tools : list Tool;
  stop : list string;
  use_stop_words : bool;
  respect_context_window : bool;
  (** [true] when a step callback was passed; its calls are recorded in
      [step_callbacks]. *)
  step_callback : bool;
  (** [None], or the predicate, which may answer differently at each check. *)
  request_within_rpm_limit : option (nat -> bool);
  crew : option Crew;
  agent : Agent;
  max_iter : Z
}.

(** The message catalogue [I18N]: each entry is the template already
    applied to its [format] arguments. *)
Record I18N := {
  force_final_answer : string;
  force_final_answer_error : string -> string;
  wrong_tool_name : string -> string -> string;
  summarizer_system_message : string;
  sumamrize_instruction : string -> string;
  summary : string -> string
}.

(** The imported collaborators. *)
Record Collaborators := {
  (** the model client; its reply may depend on the calls made before *)
  llm_call : list LLMCall -> LLMCall -> string + PyExn;
  (** [CrewAgentParser(agent).parse] *)
  parse : string -> Parsed;
  FINAL_ANSWER_AND_PARSABLE_ACTION_ERROR_MESSAGE : string;
  (** [ToolUsage.parse]: a tool call, or the message of a
      [ToolUsageErrorException] value *)
  tool_usage_parse : string -> ToolCalling + string;
  (** [ToolUsage.use] *)
  tool_usage_use : ToolCalling -> string -> string;
  (** the mixin's forced-answer policy, reading the executor *)
  _should_force_answer : Config -> Executor -> bool;
  (** [LLMContextLengthExceededException._is_context_limit_error] *)
  _is_context_limit_error : string -> bool;
  (** the mixin's human prompt *)
  _ask_human_input : string -> string;
  _i18n : I18N
}.

(** ** Field updates *)

Definition set_messages (ms : list Message) (s : Executor) : Executor :=
  {| messages := ms; iterations := iterations s;
     have_forced_answer := have_forced_answer s;
     ask_for_human_input := ask_for_human_input s;
     llm_calls := llm_calls s; tool_uses := tool_uses s;
     step_callbacks := step_callbacks s; logged := logged s;
     rpm_checks := rpm_checks s; human_prompts := human_prompts s;
     training_file := training_file s |}.

Definition set_iterations (n : Z) (s : Executor) : Executor :=
  {| messages := messages s; iterations := n;
     have_forced_answer := have_forced_answer s;
     ask_for_human_input := ask_for_human_input s;
     llm_calls := llm_calls s; tool_uses := tool_uses s;
     step_callbacks := step_callbacks s; logged := logged s;
     rpm_checks := rpm_checks s; human_prompts := human_prompts s;
     training_file := training_file s |}.

Definition set_have_forced_answer (b : bool) (s : Executor) : Executor :=
  {| messages := messages s; iterations := iterations s;
     have_forced_answer := b;
     ask_for_human_input := ask_for_human_input s;
     llm_calls := llm_calls s; tool_uses := tool_uses s;
     step_callbacks := step_callbacks s; logged := logged s;
     rpm_checks := rpm_checks s; human_prompts := human_prompts s;
     training_file := training_file s |}.

Definition set_ask_for_human_input (b : bool) (s : Executor) : Executor :=
  {| messages := messages s; iterations := iterations s;
     have_forced_answer := have_forced_answer s;
     ask_for_human_input := b;
     llm_calls := llm_calls s; tool_uses := tool_uses s;
     step_callbacks := step_callbacks s; logged := logged s;
     rpm_checks := rpm_checks s; human_prompts := human_prompts s;
     training_file := training_file s |}.

Definition set_llm_calls (l : list LLMCall) (s : Executor) : Executor :=
  {| messages := messages s; iterations := iterations s;
     have_forced_answer := have_forced_answer s;
     ask_for_human_input := ask_for_human_input s;
     llm_calls := l; tool_uses := tool_uses s;
     step_callbacks := step_callbacks s; logged := logged s;
     rpm_checks := rpm_checks s; human_prompts := human_prompts s;
     training_file := training_file s |}.

Definition set_tool_uses (l : list (ToolCalling * string)) (s : Executor) : Executor :=
  {| messages := messages s; iterations := iterations s;
     have_forced_answer := have_forced_answer s;
     ask_for_human_input := ask_for_human_input s;
     llm_calls := llm_calls s; tool_uses := l;
     step_callbacks := step_callbacks s; logged := logged s;
     rpm_checks := rpm_checks s; human_prompts := human_prompts s;
     training_file := training_file s |}.

Definition set_step_callbacks (l : list AgentAction) (s : Executor) : Executor :=
  {| messages := messages s; iterations := iterations s;
     have_forced_answer := have_forced_answer s;
     ask_for_human_input := ask_for_human_input s;
     llm_calls := llm_calls s; tool_uses := tool_uses s;
     step_callbacks := l; logged := logged s;
     rpm_checks := rpm_checks s; human_prompts := human_prompts s;
     training_file := training_file s |}.

Definition set_logged (l : list (string * string)) (s : Executor) : Executor :=
  {| messages := messages s; iterations := iterations s;
     have_forced_answer := have_forced_answer s;
     ask_for_human_input := ask_for_human_input s;
     llm_calls := llm_calls s; tool_uses := tool_uses s;
     step_callbacks := step_callbacks s; logged := l;
     rpm_checks := rpm_checks s; human_prompts := human_prompts s;
     training_file := training_file s |}.

Definition set_rpm_checks (n : nat) (s : Executor) : Executor :=
  {| messages := messages s; iterations := iterations s;
     have_forced_answer := have_forced_answer s;
     ask_for_human_input := ask_for_human_input s;
     llm_calls := llm_calls s; tool_uses := tool_uses s;
     step_callbacks := step_callbacks s; logged := logged s;
     rpm_checks := n; human_prompts := human_prompts s;
     training_file := training_file s |}.

Definition set_human_prompts (l : list string) (s : Executor) : Executor :=
  {| messages := messages s; iterations := iterations s;
     have_forced_answer := have_forced_answer s;
     ask_for_human_input := ask_for_human_input s;
     llm_calls := llm_calls s; tool_uses := tool_uses s;
     step_callbacks := step_callbacks s; logged := logged s;
     rpm_checks := rpm_checks s; human_prompts := l;
     training_file := training_file s |}.

Definition set_training_file (d : TrainingData) (s : Executor) : Executor :=
  {| messages := messages s; iterations := iterations s;
     have_forced_answer := have_forced_answer s;
     ask_for_human_input := ask_for_human_input s;
     llm_calls := llm_calls s; tool_uses := tool_uses s;
     step_callbacks := step_callbacks s; logged := logged s;
     rpm_checks := rpm_checks s; human_prompts := human_prompts s;
     training_file := d |}.

Definition set_text (t : string) (a : AgentAction) : AgentAction :=
  {| tool := tool a; tool_input := tool_input a; text := t; result := result a |}.

Definition set_result (r : option string) (a : AgentAction) : AgentAction :=
  {| tool := tool a; tool_input := tool_input a; text := text a; result := r |}.

(** The executor as [__init__] leaves it, over a given training file. *)
Definition init (file : TrainingData) : Executor :=
  {| messages := []; iterations := 0;
     have_forced_answer := false; ask_for_human_input := false;
     llm_calls := []; tool_uses := []; step_callbacks := []; logged := [];
     rpm_checks := 0; human_prompts := []; training_file := file |}.

(** ** The monad of methods: state, exceptions, and running out of fuel *)

Inductive Res (A : Type) :=
| Ok (a : A)
| Raise (e : PyExn)
| OutOfFuel.
Arguments Ok {A} a.
Arguments Raise {A} e.
Arguments OutOfFuel {A}.

Definition M (A : Type) : Type := Executor -> Res A * Executor.

Definition ret {A} (a : A) : M A := λ s, (Ok a, s).

Definition bind {A B} (m : M A) (f : A -> M B) : M B := λ s,
  match m s with
  | (Ok a, s') => f a s'
  | (Raise e, s') => (Raise e, s')
  | (OutOfFuel, s') => (OutOfFuel, s')
  end.

Declare Scope exec_scope.
Delimit Scope exec_scope with exec.
Bind Scope exec_scope with M.
Notation "'let*' x := m 'in' k" := (bind m (λ x, k))
  (at level 10, x name, m at level 100, k at level 200) : exec_scope.
Notation "m >> k" := (bind m (λ _, k))
  (at level 100, k at level 200, right associativity) : exec_scope.
Local Open Scope exec_scope.

Definition raise {A} (e : PyExn) : M A := λ s, (Raise e, s).
Definition out_of_fuel {A} : M A := λ s, (OutOfFuel, s).
Definition gets {A} (f : Executor -> A) : M A := λ s, (Ok (f s), s).
Definition modify (f : Executor -> Executor) : M unit := λ s, (Ok tt, f s).

(** [self.messages.append(m)] *)
Definition append_message (m : Message) : M unit :=
  modify (λ s, set_messages (messages s ++ [m]) s).

(** [self._logger.log(level, text, color=...)] *)
Definition log (level line : string) : M unit :=
  modify (λ s, set_logged (logged s ++ [(level, line)]) s).

Definition _format_msg (prompt : string) (role : string) : Message :=
  {| role := role; content := prompt |}.

(** [{tool.name: tool for tool in tools}]: a later tool of the same name
    replaces an earlier one. *)
Definition name_to_tool_map (cfg : Config) : gmap string Tool :=
  foldl (λ m t, <[name t := t]> m) ∅ (tools cfg).

(** The keys a [for name in d] loop visits; only membership is used. *)
Definition dict_keys {V} (d : gmap string V) : list string :=
  (map_to_list d).*1.

(** [dict[k]] *)
Definition getitem {K V} `{Countable K} (d : gmap K V) (k : K) (shown : PyVal) : M V :=
  match d !! k with
  | Some v => ret v
  | None => raise (KeyError shown)
  end.

(** Lines 189-192 of [_summarize_messages]: the chunks, message by message. *)
Definition chunks (c : string) : list string :=
  (λ i, PyStr.slice c i (i + 5000)) <$> PyStr.range 0 (String.length c) 5000.

Definition messages_groups (ms : list Message) : list string :=
  ms ≫= (λ message, chunks (content message)).

(** ** The methods of [CrewAgentExecutor] *)

(** How the body of the [try] in [_invoke_loop] is left. *)
Inductive Turn :=
| Next (formatted_answer : option AnswerValue)
| Return (v : AgentFinish).

Inductive TryResult :=
| Completed (formatted_answer : option AnswerValue)
| Returned (v : AgentFinish)
| Raised (e : PyExn) (formatted_answer : option AnswerValue)
| Fuel.

Section Methods.
Context (E : Collaborators) (cfg : Config).

(** [LLM(self.llm, stop=stop, ...).call(msgs)]: the call is made, then it
    returns the reply or raises. *)
Definition call_llm (msgs : list Message) (stop : option (list string)) : M string :=
  λ s,
    let c := {| call_messages := msgs; call_stop := stop |} in
    let s' := set_llm_calls (llm_calls s ++ [c]) s in
    match llm_call E (llm_calls s) c with
    | inl answer => (Ok answer, s')
    | inr e => (Raise e, s')
    end.

Definition _format_answer (answer : string) : M AnswerValue :=
  match parse E answer with
  | ParsedOk v => ret v
  | ParseError error => raise (OutputParserException error)
  end.

(** The two membership tests of lines 172-176. *)
Definition registered_names : list string :=
  (λ name, PyStr.strip (PyStr.casefold name)) <$> dict_keys (name_to_tool_map cfg).

Definition tool_matches (requested : string) : bool :=
  bool_decide (PyStr.strip (PyStr.casefold requested) ∈ registered_names)
  || bool_decide (PyStr.replace "_" " " (PyStr.casefold requested) ∈ registered_names).

Definition _use_tool (agent_action : AgentAction) : M string :=
  match tool_usage_parse E (text agent_action) with
  | inr message => ret message
  | inl tool_calling =>
      if tool_matches (tool_name tool_calling)
      then
        modify (λ s, set_tool_uses (tool_uses s ++ [(tool_calling, text agent_action)]) s) >>
        ret (tool_usage_use E tool_calling (text agent_action))
      else
        ret (wrong_tool_name (_i18n E) (tool_name tool_calling)
                (PyStr.join ", " ((λ t, PyStr.casefold (name t)) <$> tools cfg)))
  end.

(** The second loop of [_summarize_messages]: one model call per group. *)
Fixpoint summarize_groups (groups : list string) : M (list string) :=
  match groups with
  | [] => ret []
  | group :: rest =>
      let* summary := call_llm
        [ _format_msg (summarizer_system_message (_i18n E)) "system";
          _format_msg (sumamrize_instruction (_i18n E) group) "user" ]
        None in
      let* summarized_contents := summarize_groups rest in
      ret (summary :: summarized_contents)
  end.

Definition _summarize_messages : M unit :=
  let* ms := gets messages in
  let* summarized_contents := summarize_groups (messages_groups ms) in
  let merged_summary := PyStr.join " " summarized_contents in
  modify (set_messages [ _format_msg (summary (_i18n E) merged_summary) "user" ]).

Definition _handle_context_length : M unit :=
  if respect_context_window cfg then
    log "debug" "Context length exceeded. Summarizing content to fit the model context window." >>
    _summarize_messages
  else
    log "debug" "Context length exceeded. Consider using smaller text or RAG tools from crewai_tools." >>
    raise (SystemExit "Context length exceeded and user opted not to summarize. Consider using smaller text or RAG tools from crewai_tools.").

(** Line 99: no predicate, or the predicate says go. *)
Definition rpm_gate : M bool :=
  match request_within_rpm_limit cfg with
  | None => ret true
  | Some may_proceed =>
      let* n := gets rpm_checks in
      modify (set_rpm_checks (S n)) >>
      ret (may_proceed n)
  end.

(** Lines 106-114: the repair of a reply that holds both a final answer
    and an action. *)
Definition repair (answer : string) : string :=
  if use_stop_words cfg then answer
  else
    match parse E answer with
    | ParseError error =>
        if PyStr.contains (FINAL_ANSWER_AND_PARSABLE_ACTION_ERROR_MESSAGE E) error
        then PyStr.strip (PyStr.split_head "Observation:" answer)
        else answer
    | ParsedOk _ => answer
    end.

(** Lines 138-140: the action's text joins the conversation and the loop
    goes on with the action. *)
Definition keep_action (formatted_answer : AgentAction) : M Turn :=
  append_message (_format_msg (text formatted_answer) "assistant") >>
  ret (Next (Some (Action formatted_answer))).

(** Lines 122-124. *)
Definition run_step_callback (action_result : string) (formatted_answer : AgentAction)
    : M AgentAction :=
  if step_callback cfg then
    let formatted_answer := set_result (Some action_result) formatted_answer in
    modify (λ s, set_step_callbacks (step_callbacks s ++ [formatted_answer]) s) >>
    ret formatted_answer
  else ret formatted_answer.

(** Lines 120-124: the dispatch, the observation appended to the action's
    text, and the step callback. *)
Definition observe (formatted_answer : AgentAction) : M AgentAction :=
  let* action_result := _use_tool formatted_answer in
  let formatted_answer :=
    set_text (text formatted_answer +:+ NL +:+ "Observation: " +:+ action_result)
             formatted_answer in
  run_step_callback action_result formatted_answer.

(** Lines 125-140: the forced-answer policy, then the action's text joins
    the conversation. *)
Definition force_policy (formatted_answer : AgentAction) : M Turn :=
  let* force := gets (_should_force_answer E cfg) in
  if force then
    let* forced := gets have_forced_answer in
    if forced then
      ret (Return {| output := force_final_answer_error (_i18n E) (text formatted_answer);
                     final_text := text formatted_answer |})
    else
      let formatted_answer :=
        set_text (text formatted_answer +:+ NL +:+ force_final_answer (_i18n E))
                 formatted_answer in
      modify (set_have_forced_answer true) >>
      keep_action formatted_answer
  else keep_action formatted_answer.

(** Lines 119-140, for a reply parsed as an action. *)
Definition on_action (formatted_answer : AgentAction) : M Turn :=
  let* formatted_answer := observe formatted_answer in
  force_policy formatted_answer.

(** Lines 100-140: the model is called and its reply handled.  Whatever
    raises here (the model call, the parse of line 117) does so before
    [formatted_answer] is assigned. *)
Definition model_turn : M Turn :=
  let* ms := gets messages in
  let* answer := call_llm ms (if use_stop_words cfg then Some (stop cfg) else None) in
  let answer := repair answer in
  modify (λ s, set_iterations (iterations s + 1) s) >>
  let* formatted_answer := _format_answer answer in
  match formatted_answer with
  | Action a => on_action a
  | Finish _ => ret (Next (Some formatted_answer))
  end.

(** One pass through the body of the [while]. *)
Definition turn (formatted_answer : option AnswerValue) : M Turn :=
  let* go := rpm_gate in
  if go then model_turn else ret (Next formatted_answer).

(** The [try] block: [while not isinstance(formatted_answer, AgentFinish)]. *)
Fixpoint try_while (fuel : nat) (formatted_answer : option AnswerValue)
    (s : Executor) : TryResult * Executor :=
  match formatted_answer with
  | Some (Finish _) => (Completed formatted_answer, s)
  | _ =>
      match fuel with
      | O => (Fuel, s)
      | S fuel' =>
          match turn formatted_answer s with
          | (Ok (Next formatted_answer'), s') => try_while fuel' formatted_answer' s'
          | (Ok (Return v), s') => (Returned v, s')
          | (Raise e, s') => (Raised e formatted_answer, s')
          | (OutOfFuel, s') => (Fuel, s')
          end
      end
  end.

(** [_invoke_loop]: the [try] block, its two handlers, and line 153.
    Each handler calls [_invoke_loop] again and drops what it returns.
    The call at lines 143 and 150 is a nested call, one frame deeper at
    every re-entry.  The interpreter's recursion limit is not part of
    this model: the nesting is bounded by the fuel only, so nothing here
    speaks of runs that re-enter as often as that limit allows. *)
Fixpoint _invoke_loop (fuel : nat) (formatted_answer : option AnswerValue)
    : M (option AnswerValue) :=
  match fuel with
  | O => out_of_fuel
  | S fuel' => λ s,
      match try_while fuel' formatted_answer s with
      | (Completed formatted_answer, s') => (Ok formatted_answer, s')
      | (Returned v, s') => (Ok (Some (Finish v)), s')
      | (Fuel, s') => (OutOfFuel, s')
      | (Raised (OutputParserException error) formatted_answer, s') =>
          (append_message {| role := "assistant"; content := error |} >>
           _invoke_loop fuel' formatted_answer >>
           ret formatted_answer) s'
      | (Raised e formatted_answer, s') =>
          if is_Exception e then
            if _is_context_limit_error E (str_exn e) then
              (_handle_context_length >>
               _invoke_loop fuel' formatted_answer >>
               ret formatted_answer) s'
            else (Raise e, s')
          else (Raise e, s')
      end
  end.

(** Modelled from the spec: [CrewTrainingHandler.load] (module
    [crewai.utilities.training_handler], not part of this file).  The
    training-record store is a file-backed mapping from agent identifier
    to per-iteration records; [load()] reads the whole mapping. *)
Definition training_load : M TrainingData := gets training_file.

(** Modelled from the spec: [CrewTrainingHandler.save], which takes the
    full mapping and stores it. *)
Definition training_save (d : TrainingData) : M unit :=
  modify (set_training_file d).

(** Modelled from the spec: [CrewTrainingHandler.append], which puts the
    record under the agent's identifier and the iteration key. *)
Definition training_append (train_iteration : PyVal) (agent_id : string)
    (new_data : TrainingRecord) : M unit :=
  let* d := training_load in
  training_save (<[agent_id := <[key train_iteration := new_data]> (default ∅ (d !! agent_id))]> d).

(** Truth value of a dict: it is not empty. *)
Definition nonempty {K V} `{Countable K} (d : gmap K V) : bool :=
  negb (bool_decide (d = ∅)).

(** Lines 247-250: [training_data[agent_id][it]["improved_output"] = out],
    then the save. *)
Definition set_improved_output (training_data : TrainingData) (agent_id : string)
    (it : PyVal) (out : string) : M unit :=
  let* by_iteration := getitem training_data agent_id (VStr agent_id) in
  let* record := getitem by_iteration (key it) it in
  training_save
    (<[agent_id := <[key it := <["improved_output" := out]> record]> by_iteration]>
       training_data).

(** The first [if] of [_handle_crew_training_output] (lines 240-256). *)
Definition record_improved_output (result : AgentFinish) : M unit :=
  let agent_id := id (agent cfg) in
  let* loaded := training_load in
  let* asking := gets ask_for_human_input in
  if nonempty loaded && negb asking then
    let* training_data := training_load in
    if nonempty (default ∅ (training_data !! agent_id)) then
      match crew cfg with
      | Some c =>
          match _train_iteration c with
          | Some it => set_improved_output training_data agent_id it (output result)
          | None => log "error" "Invalid crew or missing _train_iteration attribute."
          end
      | None => log "error" "Invalid crew or missing _train_iteration attribute."
      end
    else ret tt
  else ret tt.

(** The second [if] (lines 258-282). *)
Definition record_initial_output (result : AgentFinish) (human_feedback : option string)
    : M unit :=
  let agent_id := id (agent cfg) in
  let* asking := gets ask_for_human_input in
  match human_feedback with
  | Some feedback =>
      if asking then
        let training_data : TrainingRecord :=
          <["initial_output" := output result]>
            (<["human_feedback" := feedback]>
               (<["agent" := agent_id]>
                  (<["agent_role" := agent_role (agent cfg)]> ∅))) in
        match crew cfg with
        | Some c =>
            match _train_iteration c with
            | Some train_iteration =>
                if isinstance_int train_iteration
                then training_append train_iteration agent_id training_data
                else log "error" "Invalid train iteration type. Expected int."
            | None => log "error" "Crew is None or does not have _train_iteration attribute."
            end
        | None => log "error" "Crew is None or does not have _train_iteration attribute."
        end
      else ret tt
  | None => ret tt
  end.

Definition _handle_crew_training_output (result : AgentFinish)
    (human_feedback : option string) : M unit :=
  record_improved_output result >>
  record_initial_output result human_feedback.

(** [inputs[k]] used as the second argument of [str.replace]. *)
Definition input_text (inputs : gmap string PyVal) (k : string) : M string :=
  let* v := getitem inputs k (VStr k) in
  match v with
  | VStr s => ret s
  | _ => raise (TypeError "replace() argument 2 must be str")
  end.

Definition _format_prompt (prompt : string) (inputs : gmap string PyVal) : M string :=
  let* input := input_text inputs "input" in
  let prompt := PyStr.replace "{input}" input prompt in
  let* tool_names := input_text inputs "tool_names" in
  let prompt := PyStr.replace "{tool_names}" tool_names prompt in
  let* tools := input_text inputs "tools" in
  let prompt := PyStr.replace "{tools}" tools prompt in
  ret prompt.

(** [formatted_answer.output]: only a finish has the attribute. *)
Definition get_finish (formatted_answer : option AnswerValue) : M AgentFinish :=
  match formatted_answer with
  | Some (Finish f) => ret f
  | Some (Action _) => raise (AttributeError "'AgentAction' object has no attribute 'output'")
  | None => raise (AttributeError "'NoneType' object has no attribute 'output'")
  end.

(** Lines 73-81. *)
Definition seed_prompt (inputs : gmap string PyVal) : M unit :=
  if bool_decide (is_Some (prompt cfg !! "system")) then
    let* system_prompt := _format_prompt (default "" (prompt cfg !! "system")) inputs in
    let* user_prompt := _format_prompt (default "" (prompt cfg !! "user")) inputs in
    append_message (_format_msg system_prompt "system") >>
    append_message (_format_msg user_prompt "user")
  else
    let* user_prompt := _format_prompt (default "" (prompt cfg !! "prompt")) inputs in
    append_message (_format_msg user_prompt "user").

(** Lines 85-93. *)
Definition feedback_round (fuel : nat) (formatted_answer : option AnswerValue)
    : M (option AnswerValue) :=
  let* finish := get_finish formatted_answer in
  let human_feedback := _ask_human_input E (output finish) in
  modify (λ s, set_human_prompts (human_prompts s ++ [output finish]) s) >>
  (if from_option _train false (crew cfg)
   then _handle_crew_training_output finish (Some human_feedback)
   else ret tt) >>
  modify (set_ask_for_human_input false) >>
  append_message (_format_msg ("Feedback: " +:+ human_feedback) "user") >>
  _invoke_loop fuel None.

Definition invoke (fuel : nat) (inputs : gmap string PyVal) : M (gmap string string) :=
  seed_prompt inputs >>
  modify (set_ask_for_human_input
            (truthy (default (VBool false) (inputs !! "ask_for_human_input")))) >>
  let* formatted_answer := _invoke_loop fuel None in
  let* asking := gets ask_for_human_input in
  let* formatted_answer :=
    (if asking then feedback_round fuel formatted_answer else ret formatted_answer) in
  let* finish := get_finish formatted_answer in
  ret ({[ "output" := output finish ]} : gmap string string).

End Methods.

(** ** A small world to run the executor in

    A scripted model, a parser of two reply shapes, one tool body and an
    English catalogue; the examples below run the methods in it. *)

Module Demo.

Definition i18n : I18N :=
  {| force_final_answer := "Now it's time you MUST give your absolute best final answer.";
     force_final_answer_error := λ t,
       "You can't keep going, this was the best you could do." +:+ NL +:+ t;
     wrong_tool_name := λ tool tools,
       "You tried to use the tool " +:+ tool +:+
       ", but it doesn't exist. You must use one of the following tools: " +:+ tools;
     summarizer_system_message := "You are a helpful assistant that summarizes text.";
     sumamrize_instruction := λ group, "Summarize the following text: " +:+ group;
     summary := λ merged_summary,
       "This is a summary of our conversation so far:" +:+ NL +:+ merged_summary |}.

Definition after (p s : string) : option string :=
  if String.prefix p s
  then Some (String.substring (String.length p) (String.length s - String.length p) s)
  else None.

Definition parse_reply (answer : string) : Parsed :=
  match after "Final Answer: " answer with
  | Some out => ParsedOk (Finish {| output := out; final_text := answer |})
  | None =>
      match after "Action: " answer with
      | Some t =>
          ParsedOk (Action {| tool := t; tool_input := ""; text := answer; result := None |})
      | None => ParseError "Invalid Format: I missed the 'Action:' after 'Thought:'."
      end
  end.

Definition parse_tool_call (action_text : string) : ToolCalling + string :=
  match after "Action: " action_text with
  | Some t => inl {| tool_name := t; arguments := "" |}
  | None => inr "Error: the Action Input is not a valid key, value dictionary."
  end.

(** The model answers its [n]-th call with the [n]-th entry of the script. *)
Definition llm (script : list (string + PyExn)) (before : list LLMCall) (c : LLMCall)
    : string + PyExn :=
  default (inl "Final Answer: done") (script !! length before).

Definition world (script : list (string + PyExn)) : Collaborators :=
  {| llm_call := llm script;
     parse := parse_reply;
     FINAL_ANSWER_AND_PARSABLE_ACTION_ERROR_MESSAGE :=
       "both perform Action and give a Final Answer at the same time";
     tool_usage_parse := parse_tool_call;
     tool_usage_use := λ _ _, "4";
     _should_force_answer := λ cfg s, (max_iter cfg <=? iterations s)%Z;
     _is_context_limit_error := PyStr.contains "maximum context length";
     _ask_human_input := λ _, "shorter, please";
     _i18n := i18n |}.

Definition config (tool_names : list string) (respect callback : bool) (the_crew : option Crew)
    : Config :=
  {| prompt := {[ "system" := "You are {input}."; "user" := "Tools: {tool_names} {tools}" ]};
     tools := (λ n, {| name := n |}) <$> tool_names;
     stop := ["Observation:"];
     use_stop_words := true;
     respect_context_window := respect;
     step_callback := callback;
     request_within_rpm_limit := None;
     crew := the_crew;
     agent := {| id := "agent-1"; agent_role := "Researcher" |};
     max_iter := 2 |}.

End Demo.

(** ** Vocabulary of the properties *)

(** Concatenation of a list of strings, in order. *)
Definition concat_str (l : list string) : string := foldr String.append EmptyString l.

(** [ceil(a / b)] *)
Definition ceil_div (a b : nat) : nat := (a + (b - 1)) / b.

(** [s[k:]] *)
Fixpoint sdrop (k : nat) (s : string) : string :=
  match k, s with
  | O, _ => s
  | S k', EmptyString => EmptyString
  | S k', String _ s' => sdrop k' s'
  end.

(** The chunks of [c] of size [n] from offset [start] on, as the [range]
    of line 191 produces them. *)
Definition chunks_from (n : nat) (c : string) (fuel start : nat) : list string :=
  (λ i, PyStr.slice c i (i + n)) <$> PyStr.range_go fuel start (String.length c) n.

(** Length of the concatenated contents of a conversation. *)
Definition total_length (ms : list Message) : nat :=
  foldr (λ m acc, String.length (content m) + acc) 0 ms.

(** Number of chunks, message by message. *)
Definition chunk_count (ms : list Message) : nat :=
  foldr (λ m acc, ceil_div (String.length (content m)) 5000 + acc) 0 ms.

(** The two lines [_handle_context_length] logs. *)
Definition summarizing_line : string * string :=
  ("debug", "Context length exceeded. Summarizing content to fit the model context window.").

Definition fatal_line : string * string :=
  ("debug", "Context length exceeded. Consider using smaller text or RAG tools from crewai_tools.").

Definition fatal_message : string :=
  "Context length exceeded and user opted not to summarize. Consider using smaller text or RAG tools from crewai_tools.".

(** How often context-overflow recovery has summarized so far. *)
Definition recoveries (s : Executor) : nat :=
  length (filter (λ l, l = summarizing_line) (logged s)).

(** Between two states the conversation only grew by appended messages,
    unless a recovery summarized in between. *)
Definition grows (s s' : Executor) : Prop :=
  recoveries s ≤ recoveries s' ∧
  (recoveries s' = recoveries s → messages s `prefix_of` messages s').

(** The conversation was extended at its end, nothing else. *)
Definition extends (s s' : Executor) : Prop :=
  logged s' = logged s ∧ messages s `prefix_of` messages s'.

(** The forced-answer flag, once set, stays set. *)
Definition flag_stays (s s' : Executor) : Prop :=
  have_forced_answer s = true → have_forced_answer s' = true.

(** Every run of [m] relates the state before to the state after,
    however it ends. *)
Definition preserves {A} (R : Executor → Executor → Prop) (m : M A) : Prop :=
  ∀ s r s', m s = (r, s') → R s s'.

(** The model client answers every call. *)
Definition answers (E : Collaborators) : Prop :=
  ∀ before c, ∃ reply, llm_call E before c = inl reply.

Definition is_finish (formatted_answer : option AnswerValue) : bool :=
  match formatted_answer with
  | Some (Finish _) => true
  | _ => false
  end.

(** [R] holds across each update a loop turn makes: the bookkeeping of
    calls, the counters, the flags as the loop sets them, and a message
    appended to the conversation. *)
Record Tolerates (R : Executor → Executor → Prop) : Prop := {
  tol_llm_calls : ∀ s l, R s (set_llm_calls l s);
  tol_tool_uses : ∀ s l, R s (set_tool_uses l s);
  tol_step_callbacks : ∀ s l, R s (set_step_callbacks l s);
  tol_iterations : ∀ s n, R s (set_iterations n s);
  tol_rpm_checks : ∀ s n, R s (set_rpm_checks n s);
  tol_human_prompts : ∀ s l, R s (set_human_prompts l s);
  tol_training_file : ∀ s d, R s (set_training_file d s);
  tol_ask : ∀ s b, R s (set_ask_for_human_input b s);
  tol_forced : ∀ s, R s (set_have_forced_answer true s);
  tol_append : ∀ s m, R s (set_messages (messages s ++ [m]) s)
}.

(** Only the record of model calls differs, by calls added at its end. *)
Definition calls_added (s s' : Executor) : Prop :=
  ∃ calls, s' = set_llm_calls (llm_calls s ++ calls) s.

(** A run of [m] either keeps [R] or ends in the fatal [SystemExit]. *)
Definition keeps_or_aborts {A} (R : Executor → Executor → Prop) (m : M A) : Prop :=
  ∀ s r s', m s = (r, s') → R s s' ∨ r = Raise (SystemExit fatal_message).

(** The fatal line was not logged in between. *)
Definition no_fatal (s s' : Executor) : Prop :=
  fatal_line ∈ logged s' → fatal_line ∈ logged s.

(** A computation indexed by fuel keeps its result, once it has one,
    when given more fuel. *)
Definition fuel_monotone {A} (m : nat → M A) : Prop :=
  ∀ n k s r s', m n s = (r, s') → r ≠ OutOfFuel → n ≤ k → m k s = (r, s').

(** ** Runs in the small world *)

Module Run.

(** A model that answers every call with the same final answer. *)
Definition quiet : Collaborators := Demo.world [].

(** A model whose first reply does not parse and whose second reply is a
    final answer. *)
Definition stumbling : Collaborators :=
  Demo.world [inl "I know it is 4"; inl "Final Answer: 4"].

(** A model whose first call fails with a context-limit error. *)
Definition overflowing : Collaborators :=
  Demo.world [inr (Exception "This model's maximum context length is 4097 tokens.")].

(** A model that asks for the calculator, then answers. *)
Definition calculating : Collaborators :=
  Demo.world [inl "Action: Calculator"; inl "Final Answer: 4"].

Definition plain : Config := Demo.config [] true false None.
Definition summarizing : Config := Demo.config [] true false None.
Definition strict : Config := Demo.config [] false false None.
Definition with_calculator : Config := Demo.config ["Calculator"] true false None.
Definition with_web_search : Config := Demo.config ["Web Search"] true false None.
Definition with_padded_name : Config := Demo.config [" web search"] true false None.

(** A crew in training whose iteration is the string ["1"]. *)
Definition string_iteration : Config :=
  Demo.config [] true false (Some {| _train := true; _train_iteration := Some (VStr "1") |}).

Definition inputs : gmap string PyVal :=
  {[ "input" := VStr "a calculator"; "tool_names" := VStr ""; "tools" := VStr "" ]}.

Definition action (requested : string) : AgentAction :=
  {| tool := requested; tool_input := ""; text := "Action: " +:+ requested;
     result := None |}.

(** Two messages of 6000 and of 3000 characters. *)
Definition two_messages : Executor :=
  set_messages [ _format_msg (PyStr.times "a" 6000) "user";
                 _format_msg (PyStr.times "b" 3000) "assistant" ] (init ∅).

(** The flag is set and the iterations have reached [max_iter]. *)
Definition forced : Executor :=
  set_have_forced_answer true (set_iterations 2 (init ∅)).

(** A training file with a record of iteration [0] for the agent. *)
Definition trained : Executor :=
  init {[ "agent-1" := {[ VInt 0 := {[ "initial_output" := "4" ]} ]} ]}.

Definition parse_error_text : string :=
  "Invalid Format: I missed the 'Action:' after 'Thought:'.".

(** The state in which the handler of [OutputParserException] re-enters
    the loop on the [stumbling] model. *)
Definition reentry : Executor :=
  set_messages [ {| role := "assistant"; content := parse_error_text |} ]
    (set_iterations 1
       (set_llm_calls [ {| call_messages := []; call_stop := Some ["Observation:"] |} ]
          (init ∅))).

End Run.

(** ** Vocabulary of the further properties *)

(** The list [f] keeps what it held and gains entries that satisfy [P]. *)
Definition adds {A} (f : Executor → list A) (P : A → Prop) (s s' : Executor) : Prop :=
  ∃ added, f s' = f s ++ added ∧ Forall P added.

(** A recorded tool use whose call the usage parser made from the action
    text and whose tool name the registry accepts. *)
Definition registered_use (E : Collaborators) (cfg : Config)
    (u : ToolCalling * string) : Prop :=
  tool_usage_parse E u.2 = inl u.1 ∧ tool_matches cfg (tool_name u.1) = true.

(** An action as the step callback is meant to see it: a callback is
    configured, the result is set and the text ends in the observation. *)
Definition completed (cfg : Config) (a : AgentAction) : Prop :=
  step_callback cfg = true
  ∧ ∃ action_result t,
      result a = Some action_result
      ∧ text a = t +:+ NL +:+ "Observation: " +:+ action_result.

(** The human was not prompted, the training file and the human-input
    flag are as before. *)
Definition untouched (s s' : Executor) : Prop :=
  human_prompts s' = human_prompts s
  ∧ training_file s' = training_file s
  ∧ ask_for_human_input s' = ask_for_human_input s.

(** The record of model calls only grew, the iteration counter did not go
    down, and it went up by no more than the number of calls made. *)
Definition counts (s s' : Executor) : Prop :=
  llm_calls s `prefix_of` llm_calls s'
  ∧ (iterations s ≤ iterations s')%Z
  ∧ (iterations s' - iterations s
     ≤ Z.of_nat (length (llm_calls s')) - Z.of_nat (length (llm_calls s)))%Z.

(** The call [_summarize_messages] makes for one group (lines 196-205). *)
Definition summary_call (E : Collaborators) (group : string) : LLMCall :=
  {| call_messages :=
       [ _format_msg (summarizer_system_message (_i18n E)) "system";
         _format_msg (sumamrize_instruction (_i18n E) group) "user" ];
     call_stop := None |}.

(** The record [_handle_crew_training_output] builds at lines 259-264. *)
Definition initial_record (cfg : Config) (result : AgentFinish) (feedback : string)
    : TrainingRecord :=
  <["initial_output" := output result]>
    (<["human_feedback" := feedback]>
       (<["agent" := id (agent cfg)]>
          (<["agent_role" := agent_role (agent cfg)]> ∅))).

(** ** Further runs in the small world *)

Module Probe.

(** The calculator and a step callback. *)
Definition with_callback : Config := Demo.config ["Calculator"] true true None.

(** A rate-limit predicate that always denies. *)
Definition throttled : Config :=
  {| prompt := prompt Run.plain; tools := []; stop := stop Run.plain;
     use_stop_words := true; respect_context_window := true; step_callback := false;
     request_within_rpm_limit := Some (λ _, false);
     crew := None; agent := agent Run.plain; max_iter := 2 |}.

(** No stop words: the reply is parsed once before it is used. *)
Definition without_stop_words : Config :=
  {| prompt := prompt Run.plain; tools := []; stop := [];
     use_stop_words := false; respect_context_window := true; step_callback := false;
     request_within_rpm_limit := None;
     crew := None; agent := agent Run.plain; max_iter := 2 |}.

(** A crew in training at iteration [0]. *)
Definition int_iteration : Config :=
  Demo.config [] true false (Some {| _train := true; _train_iteration := Some (VInt 0) |}).

(** A parser that rejects a reply holding both an action and a final
    answer with the repairable error. *)
Definition both_error : string :=
  "Error: both perform Action and give a Final Answer at the same time.".

Definition careful_parse (answer : string) : Parsed :=
  if PyStr.contains "Action: " answer && PyStr.contains "Final Answer: " answer
  then ParseError both_error
  else Demo.parse_reply answer.

Definition careful : Collaborators :=
  {| llm_call := llm_call Run.quiet;
     parse := careful_parse;
     FINAL_ANSWER_AND_PARSABLE_ACTION_ERROR_MESSAGE :=
       FINAL_ANSWER_AND_PARSABLE_ACTION_ERROR_MESSAGE Run.quiet;
     tool_usage_parse := tool_usage_parse Run.quiet;
     tool_usage_use := tool_usage_use Run.quiet;
     _should_force_answer := _should_force_answer Run.quiet;
     _is_context_limit_error := _is_context_limit_error Run.quiet;
     _ask_human_input := _ask_human_input Run.quiet;
     _i18n := _i18n Run.quiet |}.

(** A model whose call fails for a reason other than the context limit. *)
Definition failing : Collaborators :=
  Demo.world [inr (Exception "Rate limit reached for requests")].

(** Inputs that ask for human input. *)
Definition asking_inputs : gmap string PyVal :=
  <["ask_for_human_input" := VBool true]> Run.inputs.

(** The executor with a human-input request pending. *)
Definition pending : Executor := set_ask_for_human_input true (init ∅).

(** A reply that holds an action, an invented observation and a final
    answer. *)
Definition mixed_reply : string :=
  "Action: Calculator" +:+ NL +:+ "Observation: 5" +:+ NL +:+ "Final Answer: 5".

End Probe.

(** ** A run that triggers the forced answer twice *)

Module Chain.

(** A model that asks for the calculator twice, then replies with text
    the parser rejects, then asks for the calculator again.  With
    [max_iter = 2] the forced-answer predicate of the small world fires
    from the second reply on. *)
Definition forcing : Collaborators :=
  Demo.world [ inl "Action: Calculator"; inl "Action: Calculator";
               inl "I know it is 4"; inl "Action: Calculator" ].

(** The text of a dispatched calculator action. *)
Definition observed : string := "Action: Calculator" +:+ NL +:+ "Observation: 4".

(** The action of the second turn: the notice follows the observation. *)
Definition noticed : AgentAction :=
  {| tool := "Calculator"; tool_input := "";
     text := observed +:+ NL +:+ force_final_answer Demo.i18n;
     result := None |}.

(** The finish of lines 127-132 for the action of the fourth turn. *)
Definition terminal : AgentFinish :=
  {| output := force_final_answer_error Demo.i18n observed; final_text := observed |}.

(** The executor when the third reply has been rejected. *)
Definition raised : Executor :=
  snd (try_while forcing Run.with_calculator 3 None (init ∅)).

(** The executor in which the handler of line 141 re-enters the loop. *)
Definition reentry : Executor :=
  set_messages
    (messages raised ++ [ {| role := "assistant"; content := Run.parse_error_text |} ])
    raised.

(** A model whose first reply is rejected and whose second reply asks for
    the calculator, for a run that starts with the flag set. *)
Definition resuming : Collaborators :=
  Demo.world [ inl "I know it is 4"; inl "Action: Calculator"; inl "Final Answer: 4" ].

(** The executor in which that run re-enters the loop. *)
Definition resumed : Executor :=
  set_messages [ {| role := "assistant"; content := Run.parse_error_text |} ]
    (snd (try_while resuming Run.with_calculator 1 None Run.forced)).

End Chain.

(** * Properties *)

(** ** Strings *)

Example casefold_ex : PyStr.casefold "Web Search" = "web search".
Proof. reflexivity. Qed.

Example strip_ex : PyStr.strip "  a b " = "a b".
Proof. reflexivity. Qed.

Example replace_ex : PyStr.replace "_" " " "web_search_x" = "web search x".
Proof. vm_compute. reflexivity. Qed.

Example replace_ex2 : PyStr.replace "{input}" "2+2" "Q: {input}? {input}" = "Q: 2+2? 2+2".
Proof. vm_compute. reflexivity. Qed.

Example split_head_ex :
  PyStr.split_head "Observation:" "Action: x
Observation: y" = "Action: x
".
Proof. vm_compute. reflexivity. Qed.

Example join_ex : PyStr.join ", " ["a"; "b"; "c"] = "a, b, c".
Proof. vm_compute. reflexivity. Qed.

Example range_ex : PyStr.range 0 12 5 = [0; 5; 10].
Proof. reflexivity. Qed.

Example slice_ex : PyStr.slice "abcdefg" 5 10 = "fg".
Proof. reflexivity. Qed.

Lemma sdrop_empty k : sdrop k EmptyString = EmptyString.
Proof. by destruct k. Qed.

Lemma sdrop_length k s : String.length (sdrop k s) = String.length s - k.
Proof.
  revert s; induction k as [|k IH]; intros [|c s]; simpl; auto with lia.
Qed.

Lemma sdrop_all k s : String.length s ≤ k → sdrop k s = EmptyString.
Proof.
  revert s; induction k as [|k IH]; intros [|c s]; simpl; intros Hk;
    auto with lia.
Qed.

Lemma sdrop_sdrop i n s : sdrop n (sdrop i s) = sdrop (i + n) s.
Proof.
  revert s; induction i as [|i IH]; intros s; simpl; [done|].
  destruct s as [|c s]; [by rewrite sdrop_empty|]. apply IH.
Qed.

Lemma substring_sdrop i m s : String.substring i m s = String.substring 0 m (sdrop i s).
Proof.
  revert s; induction i as [|i IH]; intros s; [done|].
  destruct s as [|c s]; simpl; [by destruct m|]. apply IH.
Qed.

Lemma substring_take_drop m s : String.substring 0 m s +:+ sdrop m s = s.
Proof.
  revert s; induction m as [|m IH]; intros [|c s]; try reflexivity.
  change (String c (String.substring 0 m s +:+ sdrop m s) = String c s).
  by rewrite IH.
Qed.

Lemma substring_0_length_le m s : String.length (String.substring 0 m s) ≤ m.
Proof.
  revert s; induction m as [|m IH]; intros [|c s]; simpl; auto with lia.
  specialize (IH s). lia.
Qed.

Lemma substring_length_le i m s : String.length (String.substring i m s) ≤ m.
Proof. rewrite substring_sdrop. apply substring_0_length_le. Qed.

Lemma substring_nonempty i m s :
  i < String.length s → 0 < m → 0 < String.length (String.substring i m s).
Proof.
  revert s; induction i as [|i IH]; intros [|c s]; simpl; intros Hi Hm; try lia.
  - destruct m; simpl; lia.
  - apply IH; lia.
Qed.

(** ** Chunking (lines 189-192) *)

Section Chunking.
Variable n : nat.
Hypothesis n_pos : 0 < n.

Lemma slice_step c i : PyStr.slice c i (i + n) = String.substring 0 n (sdrop i c).
Proof.
  unfold PyStr.slice. replace (i + n - i) with n by lia. apply substring_sdrop.
Qed.

Lemma chunks_from_concat c fuel start :
  String.length c - start ≤ fuel →
  concat_str (chunks_from n c fuel start) = sdrop start c.
Proof.
  revert start; induction fuel as [|fuel IH]; intros start Hfuel.
  - simpl. symmetry. apply sdrop_all. lia.
  - unfold chunks_from; simpl. case_eq (start <? String.length c); intros Hlt.
    + apply Nat.ltb_lt in Hlt. rewrite fmap_cons. simpl.
      fold (chunks_from n c fuel (start + n)).
      rewrite IH by lia. rewrite slice_step, <- sdrop_sdrop.
      apply substring_take_drop.
    + apply Nat.ltb_ge in Hlt. simpl. symmetry. by apply sdrop_all.
Qed.

Lemma chunks_from_length c fuel start :
  String.length c - start ≤ fuel →
  length (chunks_from n c fuel start) = ceil_div (String.length c - start) n.
Proof.
  unfold ceil_div.
  revert start; induction fuel as [|fuel IH]; intros start Hfuel.
  - simpl. replace (String.length c - start) with 0 by lia.
    symmetry. apply Nat.div_small. lia.
  - unfold chunks_from; simpl. case_eq (start <? String.length c); intros Hlt.
    + apply Nat.ltb_lt in Hlt. rewrite fmap_cons. simpl.
      fold (chunks_from n c fuel (start + n)). rewrite IH by lia.
      destruct (decide (n ≤ String.length c - start)) as [Hge|Hsmall].
      * replace (String.length c - start + (n - 1))
          with ((String.length c - (start + n) + (n - 1)) + 1 * n) by lia.
        rewrite Nat.div_add by lia. lia.
      * replace (String.length c - (start + n)) with 0 by lia.
        rewrite (Nat.div_small (0 + (n - 1))) by lia.
        apply (Nat.div_unique _ _ 1 (String.length c - start - 1)); lia.
    + apply Nat.ltb_ge in Hlt. simpl.
      replace (String.length c - start) with 0 by lia.
      symmetry. apply Nat.div_small. lia.
Qed.

Lemma chunks_from_bounds c fuel start chunk :
  chunk ∈ chunks_from n c fuel start → 0 < String.length chunk ≤ n.
Proof.
  revert start; induction fuel as [|fuel IH]; intros start.
  - unfold chunks_from; simpl. by intros ?%elem_of_nil.
  - unfold chunks_from; simpl. case_eq (start <? String.length c); intros Hlt.
    + apply Nat.ltb_lt in Hlt. rewrite fmap_cons.
      intros [->|Hin]%elem_of_cons.
      * unfold PyStr.slice. replace (start + n - start) with n by lia.
        split; [by apply substring_nonempty | apply substring_length_le].
      * by apply (IH (start + n)).
    + by intros ?%elem_of_nil.
Qed.

End Chunking.

Lemma chunks_unfold c : chunks c = chunks_from 5000 c (String.length c) 0.
Proof. reflexivity. Qed.

Lemma chunk_size_pos : 0 < 5000.
Proof. apply Nat.ltb_lt. vm_compute. reflexivity. Qed.

Lemma chunks_concat c : concat_str (chunks c) = c.
Proof. rewrite chunks_unfold. rewrite chunks_from_concat; [done | apply chunk_size_pos | lia]. Qed.

Lemma chunks_length c : length (chunks c) = ceil_div (String.length c) 5000.
Proof.
  rewrite chunks_unfold, chunks_from_length; [| apply chunk_size_pos | lia].
  by rewrite Nat.sub_0_r.
Qed.

Lemma chunks_bounds c chunk : chunk ∈ chunks c → 0 < String.length chunk ≤ 5000.
Proof. rewrite chunks_unfold. apply chunks_from_bounds, chunk_size_pos. Qed.

(** ** Reasoning about computations *)

Lemma bind_ok {A B} (m : M A) (f : A → M B) s a s1 :
  m s = (Ok a, s1) → bind m f s = f a s1.
Proof. unfold bind. by intros ->. Qed.

Lemma bind_raise {A B} (m : M A) (f : A → M B) s e s1 :
  m s = (Raise e, s1) → bind m f s = (Raise e, s1).
Proof. unfold bind. by intros ->. Qed.

Lemma bind_inv {A B} (m : M A) (f : A → M B) s r s' :
  bind m f s = (r, s') →
  (∃ a s1, m s = (Ok a, s1) ∧ f a s1 = (r, s')) ∨
  (∃ e, m s = (Raise e, s') ∧ r = Raise e) ∨
  (m s = (OutOfFuel, s') ∧ r = OutOfFuel).
Proof.
  unfold bind. destruct (m s) as [[a|e|] s1]; intros H.
  - left. eauto.
  - right; left. inversion H; subst. eauto.
  - right; right. by inversion H; subst.
Qed.

Section Preserves.
Context (R : Executor → Executor → Prop) `{!PreOrder R}.

Lemma preserves_ret {A} (a : A) : preserves R (ret a).
Proof. intros s r s' [= <- <-]. reflexivity. Qed.

Lemma preserves_raise {A} e : preserves R (raise (A := A) e).
Proof. intros s r s' [= <- <-]. reflexivity. Qed.

Lemma preserves_out_of_fuel {A} : preserves R (out_of_fuel (A := A)).
Proof. intros s r s' [= <- <-]. reflexivity. Qed.

Lemma preserves_gets {A} (f : Executor → A) : preserves R (gets f).
Proof. intros s r s' [= <- <-]. reflexivity. Qed.

Lemma preserves_modify g : (∀ s, R s (g s)) → preserves R (modify g).
Proof. intros Hg s r s' [= <- <-]. apply Hg. Qed.

Lemma preserves_bind {A B} (m : M A) (f : A → M B) :
  preserves R m → (∀ a, preserves R (f a)) → preserves R (bind m f).
Proof.
  intros Hm Hf s r s' Hrun.
  apply bind_inv in Hrun as [(a & s1 & H1 & H2)|[(e & H1 & _)|[H1 _]]].
  - transitivity s1; [by eapply Hm | by eapply Hf].
  - by eapply Hm.
  - by eapply Hm.
Qed.

Lemma preserves_getitem {K V} `{Countable K} (d : gmap K V) k shown :
  preserves R (getitem d k shown).
Proof. unfold getitem. destruct (d !! k); [apply preserves_ret | apply preserves_raise]. Qed.

Lemma preserves_call_llm E ms stop :
  (∀ s l, R s (set_llm_calls l s)) → preserves R (call_llm E ms stop).
Proof.
  intros Hset s r s'. unfold call_llm.
  destruct (llm_call E _ _); intros [= <- <-]; apply Hset.
Qed.

End Preserves.

Ltac preserves_step :=
  lazymatch goal with
  | |- preserves _ (bind _ _) => refine (preserves_bind _ _ _ _ _); [ | intros ? ]
  | |- preserves _ (ret _) => refine (preserves_ret _ _)
  | |- preserves _ (raise _) => refine (preserves_raise _ _)
  | |- preserves _ (gets _) => refine (preserves_gets _ _)
  | |- preserves _ out_of_fuel => refine (preserves_out_of_fuel _)
  | |- preserves _ (getitem _ _ _) => refine (preserves_getitem _ _ _ _)
  | |- preserves _ (modify _) => refine (preserves_modify _ _ _); intros ?
  | |- preserves _ (if ?b then _ else _) => destruct b
  | |- preserves _ (match ?x with _ => _ end) => destruct x
  end.

Ltac preserves_go := cbv zeta; repeat (preserves_step; cbv zeta).

(** The relations are preorders. *)

#[local] Instance flag_stays_preorder : PreOrder flag_stays.
Proof. split; unfold flag_stays; [intros s | intros s1 s2 s3]; auto. Qed.

#[local] Instance extends_preorder : PreOrder extends.
Proof.
  split; unfold extends.
  - intros s. split; reflexivity.
  - intros s1 s2 s3 [L12 P12] [L23 P23]. split; [congruence | by etrans].
Qed.

#[local] Instance grows_preorder : PreOrder grows.
Proof.
  split; unfold grows.
  - intros s. split; [lia | reflexivity].
  - intros s1 s2 s3 [L12 P12] [L23 P23]. split; [lia|].
    intros Heq. etrans; [apply P12 | apply P23]; lia.
Qed.

Lemma extends_grows s s' : extends s s' → grows s s'.
Proof. intros [Hl Hp]. unfold grows, recoveries. rewrite Hl. auto. Qed.

Lemma preserves_weaken {A} (R R' : Executor → Executor → Prop) (m : M A) :
  (∀ s s', R s s' → R' s s') → preserves R m → preserves R' m.
Proof. intros HR Hm s r s' Hrun. eapply HR, Hm, Hrun. Qed.

(** ** The loop, generically *)

Section Loop.
Context (E : Collaborators) (cfg : Config).
Context (R : Executor → Executor → Prop) `{!PreOrder R}.
Hypothesis turn_R : ∀ formatted_answer, preserves R (turn E cfg formatted_answer).
Hypothesis append_R : ∀ m, preserves R (append_message m).
Hypothesis recovery_R : preserves R (_handle_context_length E cfg).

Lemma try_while_preserves fuel formatted_answer s r s' :
  try_while E cfg fuel formatted_answer s = (r, s') → R s s'.
Proof.
  revert formatted_answer s; induction fuel as [|fuel IH]; intros fa s.
  - destruct fa as [[a|f]|]; simpl; intros [= <- <-]; reflexivity.
  - destruct fa as [[a|f]|]; simpl; try (intros [= <- <-]; reflexivity).
    all: destruct (turn E cfg _ s) as [[[fa'|v]|e|] s1] eqn:Hturn;
      apply turn_R in Hturn.
    all: try (intros [= <- <-]; exact Hturn).
    all: intros Hrest; transitivity s1; [exact Hturn | by eapply IH].
Qed.

Lemma invoke_loop_preserves fuel formatted_answer :
  preserves R (_invoke_loop E cfg fuel formatted_answer).
Proof.
  revert formatted_answer; induction fuel as [|fuel IH]; intros fa; simpl.
  - refine (preserves_out_of_fuel _).
  - intros s r s'.
    destruct (try_while E cfg fuel fa s) as [tr s1] eqn:Htry.
    apply try_while_preserves in Htry.
    assert (Hrec : ∀ fa' (m : M unit),
               preserves R m →
               preserves R (bind m (λ _, bind (_invoke_loop E cfg fuel fa') (λ _, ret fa')))).
    { intros fa' m Hm. preserves_step; [exact Hm|].
      preserves_step; [apply IH|]. preserves_step. }
    destruct tr as [fa'|v|e fa'|].
    1,2,4: intros [= <- <-]; exact Htry.
    destruct e; simpl.
    1: intros Hrun; transitivity s1; [exact Htry|];
       by eapply (Hrec fa' _ (append_R _)).
    1-4: destruct (_is_context_limit_error E _);
         [ intros Hrun; transitivity s1; [exact Htry|];
           by eapply (Hrec fa' _ recovery_R)
         | intros [= <- <-]; exact Htry ].
    intros [= <- <-]; exact Htry.
Qed.

End Loop.

(** ** What a turn may change *)

Section Turn.
Context (E : Collaborators) (cfg : Config).
Context (R : Executor → Executor → Prop) `{!PreOrder R} (tol : Tolerates R).

Lemma append_message_preserves m : preserves R (append_message m).
Proof. unfold append_message. preserves_go. apply tol. Qed.

Lemma use_tool_preserves a : preserves R (_use_tool E cfg a).
Proof. unfold _use_tool. preserves_go. apply tol. Qed.

Lemma observe_preserves a : preserves R (observe E cfg a).
Proof.
  unfold observe. preserves_go; [apply use_tool_preserves|].
  unfold run_step_callback. preserves_go. apply tol.
Qed.

Lemma keep_action_preserves a : preserves R (keep_action a).
Proof. unfold keep_action. preserves_go. apply append_message_preserves. Qed.

Lemma force_policy_preserves a : preserves R (force_policy E cfg a).
Proof.
  unfold force_policy. preserves_go; try apply keep_action_preserves. apply tol.
Qed.

Lemma turn_preserves formatted_answer : preserves R (turn E cfg formatted_answer).
Proof.
  unfold turn, rpm_gate, model_turn, _format_answer, on_action.
  preserves_go; try apply tol.
  - refine (preserves_call_llm _ _ _ _ _). apply tol.
  - apply observe_preserves.
  - apply force_policy_preserves.
Qed.

End Turn.

(** ** The relations tolerate the loop's updates *)

Lemma flag_stays_tolerates : Tolerates flag_stays.
Proof. split; unfold flag_stays; intros; simpl; auto. Qed.

Lemma extends_tolerates : Tolerates extends.
Proof.
  split; unfold extends; intros; simpl; split; try reflexivity.
  by apply prefix_app_r.
Qed.

Lemma grows_tolerates : Tolerates grows.
Proof.
  split; intros; apply extends_grows; apply extends_tolerates.
Qed.

#[local] Instance calls_added_preorder : PreOrder calls_added.
Proof.
  split.
  - intros s. exists []. rewrite app_nil_r. by destruct s.
  - intros s1 s2 s3 [c1 ->] [c2 ->]. exists (c1 ++ c2). simpl.
    rewrite app_assoc. by destruct s1.
Qed.

(** ** Context-overflow recovery *)

Section Recovery.
Context (E : Collaborators) (cfg : Config).

Lemma call_llm_calls_added ms stop : preserves calls_added (call_llm E ms stop).
Proof.
  intros s r s'. unfold call_llm.
  destruct (llm_call E _ _); intros [= <- <-]; by eexists.
Qed.

Lemma summarize_groups_calls_added groups :
  preserves calls_added (summarize_groups E groups).
Proof.
  induction groups as [|group rest IH]; simpl; preserves_go.
  - apply call_llm_calls_added.
  - apply IH.
Qed.

(** When the model answers, each group costs exactly one call. *)
Lemma summarize_groups_ok groups s :
  answers E →
  ∃ summaries calls,
    summarize_groups E groups s = (Ok summaries, set_llm_calls (llm_calls s ++ calls) s)
    ∧ length calls = length groups.
Proof.
  intros Hanswers. revert s; induction groups as [|group rest IH]; intros s; simpl.
  - exists [], []. split; [|done]. unfold ret. rewrite app_nil_r. by destruct s.
  - pose (c := {| call_messages :=
                    [ _format_msg (summarizer_system_message (_i18n E)) "system";
                      _format_msg (sumamrize_instruction (_i18n E) group) "user" ];
                  call_stop := None |}).
    destruct (Hanswers (llm_calls s) c) as [reply Hreply].
    destruct (IH (set_llm_calls (llm_calls s ++ [c]) s))
      as (summaries & calls & Hrun & Hlen).
    exists (reply :: summaries), (c :: calls). split.
    + unfold bind at 1. unfold call_llm. cbv zeta. fold c. rewrite Hreply.
      unfold bind. rewrite Hrun. unfold ret. f_equal.
      simpl. rewrite <- app_assoc. by destruct s.
    + simpl. by rewrite Hlen.
Qed.

Lemma messages_groups_length ms : length (messages_groups ms) = chunk_count ms.
Proof.
  unfold messages_groups. induction ms as [|m ms IH]; [done|].
  rewrite bind_cons, length_app, IH, chunks_length. done.
Qed.

Lemma summarize_messages_ok s :
  answers E →
  ∃ merged_summary calls,
    _summarize_messages E s =
      (Ok tt, set_messages [ _format_msg (summary (_i18n E) merged_summary) "user" ]
                (set_llm_calls (llm_calls s ++ calls) s))
    ∧ length calls = chunk_count (messages s).
Proof.
  intros Hanswers. unfold _summarize_messages.
  destruct (summarize_groups_ok (messages_groups (messages s)) s Hanswers)
    as (summaries & calls & Hrun & Hlen).
  exists (PyStr.join " " summaries), calls. split.
  - unfold bind, gets. rewrite Hrun. reflexivity.
  - by rewrite Hlen, messages_groups_length.
Qed.

(** However it ends, summarizing leaves the log alone; when it returns,
    one message is left, and when it raises, the conversation is as before. *)
Lemma summarize_messages_cases s r s' :
  _summarize_messages E s = (r, s') →
  logged s' = logged s ∧ have_forced_answer s' = have_forced_answer s ∧
  ((r = Ok tt ∧ ∃ merged_summary,
      messages s' = [ _format_msg (summary (_i18n E) merged_summary) "user" ])
   ∨ (r ≠ Ok tt ∧ messages s' = messages s)).
Proof.
  unfold _summarize_messages. intros Hrun.
  apply bind_inv in Hrun as [(ms & s1 & [= <- <-] & Hrun)|[(e & [=] & _)|[[=] _]]].
  apply bind_inv in Hrun as [(sums & s1 & Hsum & Hset)|[(e & Hsum & ->)|[Hsum ->]]];
    apply summarize_groups_calls_added in Hsum as [calls ->].
  - injection Hset as <- <-. simpl. repeat split. left. eauto.
  - simpl. repeat split. right. done.
  - simpl. repeat split. right. done.
Qed.

Lemma recoveries_logged_summarizing s :
  recoveries (set_logged (logged s ++ [summarizing_line]) s) = S (recoveries s).
Proof.
  unfold recoveries; simpl. rewrite filter_app, length_app.
  rewrite filter_cons_True by done. simpl. lia.
Qed.

Lemma recoveries_logged_other s line :
  line ≠ summarizing_line →
  recoveries (set_logged (logged s ++ [line]) s) = recoveries s.
Proof.
  intros Hne. unfold recoveries; simpl. rewrite filter_app, length_app.
  rewrite filter_cons_False by done. simpl. lia.
Qed.

Lemma handle_context_length_cases s r s' :
  _handle_context_length E cfg s = (r, s') →
  have_forced_answer s' = have_forced_answer s ∧
  ((respect_context_window cfg = false ∧ r = Raise (SystemExit fatal_message)
    ∧ s' = set_logged (logged s ++ [fatal_line]) s)
   ∨ (respect_context_window cfg = true
      ∧ logged s' = logged s ++ [summarizing_line]
      ∧ ((r = Ok tt ∧ ∃ merged_summary,
            messages s' = [ _format_msg (summary (_i18n E) merged_summary) "user" ])
         ∨ (r ≠ Ok tt ∧ messages s' = messages s)))).
Proof.
  unfold _handle_context_length. destruct (respect_context_window cfg).
  - intros Hrun.
    apply bind_inv in Hrun as [(u & s1 & [= <- <-] & Hrun)|[(e & [=] & _)|[[=] _]]].
    apply summarize_messages_cases in Hrun as (Hlog & Hflag & Hmsg).
    split; [exact Hflag|]. right. split; [done|]. split; [exact Hlog|]. exact Hmsg.
  - intros [= <- <-]. split; [done|]. left. done.
Qed.

Lemma handle_context_length_flag_stays :
  preserves flag_stays (_handle_context_length E cfg).
Proof.
  intros s r s' Hrun. apply handle_context_length_cases in Hrun as [Hflag _].
  unfold flag_stays. congruence.
Qed.

Lemma handle_context_length_grows : preserves grows (_handle_context_length E cfg).
Proof.
  intros s r s' Hrun.
  apply handle_context_length_cases in Hrun
    as [_ [(_ & _ & ->)|(_ & Hlog & _)]]; unfold grows.
  - rewrite recoveries_logged_other by done. simpl. split; [lia | reflexivity].
  - assert (recoveries s' = S (recoveries s)) as ->.
    { unfold recoveries. rewrite Hlog, filter_app, length_app.
      rewrite filter_cons_True by done. simpl. lia. }
    split; lia.
Qed.

Lemma invoke_loop_flag_stays fuel formatted_answer :
  preserves flag_stays (_invoke_loop E cfg fuel formatted_answer).
Proof.
  apply invoke_loop_preserves; try apply _.
  - intros fa. apply turn_preserves; first [apply _ | apply flag_stays_tolerates].
  - intros m. apply append_message_preserves;
      first [apply _ | apply flag_stays_tolerates].
  - apply handle_context_length_flag_stays.
Qed.

Lemma invoke_loop_grows fuel formatted_answer :
  preserves grows (_invoke_loop E cfg fuel formatted_answer).
Proof.
  apply invoke_loop_preserves; try apply _.
  - intros fa. apply turn_preserves; first [apply _ | apply grows_tolerates].
  - intros m. apply append_message_preserves; first [apply _ | apply grows_tolerates].
  - apply handle_context_length_grows.
Qed.

End Recovery.

(** ** The training records and [invoke], generically *)

Section Invoke.
Context (E : Collaborators) (cfg : Config).
Context (R : Executor → Executor → Prop) `{!PreOrder R} (tol : Tolerates R).
Hypothesis error_R : ∀ s line, R s (set_logged (logged s ++ [("error", line)]) s).
Hypothesis loop_R : ∀ fuel formatted_answer,
  preserves R (_invoke_loop E cfg fuel formatted_answer).

Lemma training_output_preserves result human_feedback :
  preserves R (_handle_crew_training_output cfg result human_feedback).
Proof.
  unfold _handle_crew_training_output, record_improved_output, record_initial_output,
    set_improved_output, training_append, training_load, training_save, log.
  preserves_go; first [apply tol | apply error_R].
Qed.

Lemma format_prompt_preserves prompt inputs : preserves R (_format_prompt prompt inputs).
Proof. unfold _format_prompt, input_text. preserves_go. Qed.

Lemma seed_prompt_preserves inputs : preserves R (seed_prompt cfg inputs).
Proof.
  unfold seed_prompt, append_message.
  preserves_go; first [apply format_prompt_preserves; apply _ | apply tol].
Qed.

Lemma feedback_round_preserves fuel formatted_answer :
  preserves R (feedback_round E cfg fuel formatted_answer).
Proof.
  unfold feedback_round, get_finish, append_message.
  preserves_go;
    first [apply tol | apply loop_R | apply training_output_preserves].
Qed.

Lemma invoke_preserves fuel inputs : preserves R (invoke E cfg fuel inputs).
Proof.
  unfold invoke, get_finish.
  preserves_go;
    first [apply tol | apply loop_R | apply seed_prompt_preserves
          | apply feedback_round_preserves].
Qed.

End Invoke.

(** ** The tool dispatcher *)

Section Dispatcher.
Context (E : Collaborators) (cfg : Config).

Lemma dict_keys_spec {V} (d : gmap string V) k : k ∈ dict_keys d ↔ is_Some (d !! k).
Proof.
  unfold dict_keys. rewrite list_elem_of_fmap. split.
  - intros ([k' v] & -> & Hin). apply elem_of_map_to_list in Hin. by exists v.
  - intros [v Hv]. exists (k, v). split; [done|]. by apply elem_of_map_to_list.
Qed.

Lemma foldl_insert_names (l : list Tool) (m : gmap string Tool) k :
  is_Some (foldl (λ m t, <[name t := t]> m) m l !! k)
  ↔ is_Some (m !! k) ∨ ∃ t, t ∈ l ∧ name t = k.
Proof.
  revert m; induction l as [|t l IH]; intros m; simpl.
  - split; [by left|]. intros [H|(t & Hin & _)]; [done|]. by apply elem_of_nil in Hin.
  - rewrite IH, lookup_insert_is_Some. split.
    + intros [[Heq|[_ H]]|(t' & Hin & Hname)].
      * right. exists t. split; [apply elem_of_cons; by left | done].
      * by left.
      * right. exists t'. split; [apply elem_of_cons; by right | done].
    + intros [H|(t' & Hin & Hname)].
      * destruct (decide (name t = k)); [left; by left | left; right; done].
      * apply elem_of_cons in Hin as [->|Hin]; [left; by left|].
        right. by exists t'.
Qed.

(** The keys of [name_to_tool_map] are the names of the tools. *)
Lemma name_to_tool_map_keys k :
  k ∈ dict_keys (name_to_tool_map cfg) ↔ ∃ t, t ∈ tools cfg ∧ name t = k.
Proof.
  rewrite dict_keys_spec. unfold name_to_tool_map. rewrite foldl_insert_names.
  rewrite lookup_empty. split; [intros [[? [=]]|H]; done | by right].
Qed.

Lemma registered_names_spec x :
  x ∈ registered_names cfg
  ↔ ∃ t, t ∈ tools cfg ∧ x = PyStr.strip (PyStr.casefold (name t)).
Proof.
  unfold registered_names. rewrite list_elem_of_fmap. split.
  - intros (k & -> & Hk). apply name_to_tool_map_keys in Hk as (t & Hin & <-). eauto.
  - intros (t & Hin & ->). exists (name t). split; [done|].
    apply name_to_tool_map_keys. eauto.
Qed.

Lemma tool_matches_spec requested :
  tool_matches cfg requested = true
  ↔ ∃ t, t ∈ tools cfg ∧
      (PyStr.strip (PyStr.casefold requested) = PyStr.strip (PyStr.casefold (name t))
       ∨ PyStr.replace "_" " " (PyStr.casefold requested)
         = PyStr.strip (PyStr.casefold (name t))).
Proof.
  unfold tool_matches. rewrite orb_true_iff, !bool_decide_eq_true, !registered_names_spec.
  split.
  - intros [(t & Hin & H)|(t & Hin & H)]; exists t; auto.
  - intros (t & Hin & [H|H]); [left | right]; eauto.
Qed.

Lemma use_tool_matched a tool_calling s :
  tool_usage_parse E (text a) = inl tool_calling →
  tool_matches cfg (tool_name tool_calling) = true →
  _use_tool E cfg a s =
    (Ok (tool_usage_use E tool_calling (text a)),
     set_tool_uses (tool_uses s ++ [(tool_calling, text a)]) s).
Proof. intros Hparse Hmatch. unfold _use_tool. by rewrite Hparse, Hmatch. Qed.

Lemma use_tool_unmatched a tool_calling s :
  tool_usage_parse E (text a) = inl tool_calling →
  tool_matches cfg (tool_name tool_calling) = false →
  _use_tool E cfg a s =
    (Ok (wrong_tool_name (_i18n E) (tool_name tool_calling)
           (PyStr.join ", " ((λ t, PyStr.casefold (name t)) <$> tools cfg))),
     s).
Proof. intros Hparse Hmatch. unfold _use_tool. by rewrite Hparse, Hmatch. Qed.

(** The dispatcher always returns a text. *)
Lemma use_tool_returns a s :
  ∃ action_result s1, _use_tool E cfg a s = (Ok action_result, s1).
Proof.
  unfold _use_tool. destruct (tool_usage_parse E (text a)) as [tc|msg]; [|by eexists _, _].
  destruct (tool_matches cfg (tool_name tc)); by eexists _, _.
Qed.

End Dispatcher.

(** ** Fuel: a run that ends keeps its result when given more *)

Section Fuel.
Context (E : Collaborators) (cfg : Config).

Lemma try_while_mono n m formatted_answer s r s' :
  try_while E cfg n formatted_answer s = (r, s') → r ≠ Fuel → n ≤ m →
  try_while E cfg m formatted_answer s = (r, s').
Proof.
  revert m formatted_answer s; induction n as [|n IH]; intros m fa s Hrun Hr Hle.
  - destruct fa as [[a|f]|]; simpl in Hrun; injection Hrun as <- <-; try done.
    by destruct m.
  - destruct m as [|m]; [lia|].
    destruct fa as [[a|f]|]; simpl in *; try done.
    all: destruct (turn E cfg _ s) as [[[fa'|v]|e|] s1]; try done.
    all: apply IH; [done | done | lia].
Qed.

Lemma invoke_loop_mono n m formatted_answer s r s' :
  _invoke_loop E cfg n formatted_answer s = (r, s') → r ≠ OutOfFuel → n ≤ m →
  _invoke_loop E cfg m formatted_answer s = (r, s').
Proof.
  revert m formatted_answer s r s'; induction n as [|n IH]; intros m fa s r s' Hrun Hr Hle.
  - injection Hrun as <- <-. done.
  - destruct m as [|m]; [lia|]. simpl in *.
    destruct (try_while E cfg n fa s) as [tr s1] eqn:Htry.
    assert (Hrec : ∀ fa' (h : M unit) s0,
      bind h (λ _, bind (_invoke_loop E cfg n fa') (λ _, ret fa')) s0 = (r, s') →
      bind h (λ _, bind (_invoke_loop E cfg m fa') (λ _, ret fa')) s0 = (r, s')).
    { intros fa' h s0. unfold bind.
      destruct (h s0) as [[u|e|] s2]; try done.
      destruct (_invoke_loop E cfg n fa' s2) as [[v|e|] s3] eqn:Hinner;
        intros Hres.
      - rewrite (IH m _ _ _ _ Hinner); [exact Hres | done | lia].
      - rewrite (IH m _ _ _ _ Hinner); [exact Hres | done | lia].
      - injection Hres as <- <-. done. }
    destruct tr as [fa'|v|e fa'|].
    + rewrite (try_while_mono n m fa s _ _ Htry); [done | done | lia].
    + rewrite (try_while_mono n m fa s _ _ Htry); [done | done | lia].
    + rewrite (try_while_mono n m fa s _ _ Htry); [| done | lia].
      destruct e; simpl in *; try done.
      1: by apply Hrec.
      all: destruct (_is_context_limit_error E _); [by apply Hrec | done].
    + injection Hrun as <- <-. done.
Qed.

(** What [_invoke_loop] returns once a handler has run: the handler's
    own [formatted_answer], which is never a finish. *)
Lemma try_while_raised fuel formatted_answer s e fa' s1 :
  try_while E cfg fuel formatted_answer s = (Raised e fa', s1) → is_finish fa' = false.
Proof.
  revert formatted_answer s; induction fuel as [|fuel IH]; intros fa s.
  - by destruct fa as [[a|f]|].
  - destruct fa as [[a|f]|]; simpl; try done.
    all: destruct (turn E cfg _ s) as [[[fa1|v]|e1|] s2]; try done.
    all: try apply IH.
    all: by intros [= <- <- <-].
Qed.

Lemma invoke_loop_after_handler fuel formatted_answer s e fa' s1 v s' :
  try_while E cfg fuel formatted_answer s = (Raised e fa', s1) →
  _invoke_loop E cfg (S fuel) formatted_answer s = (Ok v, s') →
  v = fa' ∧ is_finish v = false.
Proof.
  intros Htry Hrun. pose proof (try_while_raised _ _ _ _ _ _ Htry) as Hnf.
  simpl in Hrun. rewrite Htry in Hrun.
  assert (Hrec : ∀ (h : M unit) s0,
    bind h (λ _, bind (_invoke_loop E cfg fuel fa') (λ _, ret fa')) s0 = (Ok v, s') →
    v = fa').
  { intros h s0. unfold bind, ret.
    destruct (h s0) as [[u|e0|] s2]; try done.
    destruct (_invoke_loop E cfg fuel fa' s2) as [[v0|e0|] s3]; try done.
    by intros [= <- <-]. }
  destruct e; simpl in Hrun.
  1: apply Hrec in Hrun; by subst.
  1-4: destruct (_is_context_limit_error E _); [apply Hrec in Hrun; by subst | done].
  done.
Qed.

End Fuel.

(** ** The fatal abort *)

#[local] Instance no_fatal_preorder : PreOrder no_fatal.
Proof. split; unfold no_fatal; [intros s | intros s1 s2 s3]; auto. Qed.

Lemma no_fatal_tolerates : Tolerates no_fatal.
Proof. split; unfold no_fatal; intros; simpl in *; auto. Qed.

Lemma no_fatal_error s line : no_fatal s (set_logged (logged s ++ [("error", line)]) s).
Proof.
  unfold no_fatal; simpl. rewrite elem_of_app, list_elem_of_singleton.
  intros [H|[=]]. exact H.
Qed.

Lemma keeps_of_preserves {A} R (m : M A) : preserves R m → keeps_or_aborts R m.
Proof. intros Hm s r s' Hrun. left. by eapply Hm. Qed.

Lemma keeps_or_aborts_bind {A B} R `{!PreOrder R} (m : M A) (f : A → M B) :
  keeps_or_aborts R m → (∀ a, keeps_or_aborts R (f a)) → keeps_or_aborts R (bind m f).
Proof.
  intros Hm Hf s r s' Hrun.
  apply bind_inv in Hrun as [(a & s1 & H1 & H2)|[(e & H1 & ->)|[H1 ->]]].
  - destruct (Hm _ _ _ H1) as [HR|[=]]. destruct (Hf _ _ _ _ H2) as [HR'| ->].
    + left. by transitivity s1.
    + by right.
  - destruct (Hm _ _ _ H1) as [HR|[= ->]]; [by left | by right].
  - destruct (Hm _ _ _ H1) as [HR|[=]]. by left.
Qed.

Section Abort.
Context (E : Collaborators) (cfg : Config).
Hypothesis no_respect : respect_context_window cfg = false.

Lemma handle_context_length_aborts s :
  _handle_context_length E cfg s =
    (Raise (SystemExit fatal_message), set_logged (logged s ++ [fatal_line]) s).
Proof. unfold _handle_context_length. by rewrite no_respect. Qed.

Lemma invoke_loop_keeps_or_aborts fuel formatted_answer :
  keeps_or_aborts no_fatal (_invoke_loop E cfg fuel formatted_answer).
Proof.
  revert formatted_answer; induction fuel as [|fuel IH]; intros fa s r s'; simpl.
  - intros [= <- <-]. by left.
  - destruct (try_while E cfg fuel fa s) as [tr s1] eqn:Htry.
    apply (try_while_preserves E cfg no_fatal) in Htry;
      [| intros fa0; apply turn_preserves; first [apply _ | apply no_fatal_tolerates]].
    destruct tr as [fa'|v|e fa'|].
    1,2,4: intros [= <- <-]; by left.
    destruct e; simpl.
    1: { intros Hrun.
         assert (Hk : keeps_or_aborts no_fatal
                   (bind (append_message {| role := "assistant"; content := error |})
                      (λ _, bind (_invoke_loop E cfg fuel fa') (λ _, ret fa')))).
         { apply keeps_or_aborts_bind; [apply _ | |].
           - apply keeps_of_preserves, append_message_preserves;
               first [apply _ | apply no_fatal_tolerates].
           - intros _. apply keeps_or_aborts_bind; [apply _ | apply IH |].
             intros _. apply keeps_of_preserves. preserves_step. }
         destruct (Hk _ _ _ Hrun) as [HR| ->]; [left; by transitivity s1 | by right]. }
    1-4: destruct (_is_context_limit_error E _);
         [ unfold bind; rewrite handle_context_length_aborts; intros [= <- <-]; by right
         | intros [= <- <-]; by left ].
    intros [= <- <-]; by left.
Qed.

Lemma invoke_keeps_or_aborts fuel inputs :
  keeps_or_aborts no_fatal (invoke E cfg fuel inputs).
Proof.
  assert (Hp : ∀ A (m : M A), preserves no_fatal m → keeps_or_aborts no_fatal m)
    by (intros; by apply keeps_of_preserves).
  unfold invoke.
  repeat (apply keeps_or_aborts_bind; [apply _ | | intros ?]).
  - apply Hp, seed_prompt_preserves; first [apply _ | apply no_fatal_tolerates].
  - apply Hp. preserves_step. apply no_fatal_tolerates.
  - apply invoke_loop_keeps_or_aborts.
  - apply Hp. preserves_step.
  - destruct a2; [| apply Hp; preserves_step].
    unfold feedback_round.
    repeat (apply keeps_or_aborts_bind; [apply _ | | intros ?]).
    + apply Hp. unfold get_finish. preserves_go.
    + apply Hp. preserves_step. apply no_fatal_tolerates.
    + apply Hp. destruct (from_option _ _ _); [| preserves_step].
      apply training_output_preserves;
        first [apply _ | apply no_fatal_tolerates | apply no_fatal_error].
    + apply Hp. preserves_step. apply no_fatal_tolerates.
    + apply Hp, append_message_preserves; first [apply _ | apply no_fatal_tolerates].
    + apply invoke_loop_keeps_or_aborts.
  - apply Hp. unfold get_finish. preserves_go.
  - apply Hp. preserves_step.
Qed.

End Abort.

(** ** The claims about summarization *)

Lemma chunks_from_lookup n c fuel start k chunk :
  chunks_from n c fuel start !! k = Some chunk →
  chunk = PyStr.slice c (start + k * n) (start + k * n + n).
Proof.
  revert start k; induction fuel as [|fuel IH]; intros start k; unfold chunks_from; simpl.
  - done.
  - destruct (start <? String.length c); [|done]. rewrite fmap_cons.
    destruct k as [|k]; simpl.
    + intros [= <-]. by rewrite Nat.add_0_r.
    + intros Hk. apply IH in Hk as ->. f_equal; lia.
Qed.

Lemma chunks_lookup c k chunk :
  chunks c !! k = Some chunk → chunk = PyStr.slice c (k * 5000) (k * 5000 + 5000).
Proof. rewrite chunks_unfold. intros H. by apply chunks_from_lookup in H. Qed.


Lemma total_length_cons m ms :
  total_length (m :: ms) = String.length (content m) + total_length ms.
Proof. reflexivity. Qed.



(** C10: the chunking step of [_summarize_messages] partitions each
    message's content losslessly.  The groups are the chunks of the
    messages in message order; the chunks of one content are its
    consecutive slices [content[5000k : 5000k + 5000]], each of 1 to 5000
    characters, they concatenate back to the content, and there are
    [ceil(len / 5000)] of them, none for an empty content.  When the
    model answers, summarizing makes one call per chunk, so the number of
    calls is the sum over the messages of [ceil(len(content) / 5000)]. *)
Theorem chunking_partitions_each_message (E : Collaborators) (s : Executor) :
  messages_groups (messages s) = concat ((λ m, chunks (content m)) <$> messages s)
  ∧ (∀ c : string,
       concat_str (chunks c) = c
       ∧ length (chunks c) = ceil_div (String.length c) 5000
       ∧ (∀ chunk, chunk ∈ chunks c → 0 < String.length chunk ≤ 5000)
       ∧ (∀ k chunk, chunks c !! k = Some chunk →
            chunk = PyStr.slice c (k * 5000) (k * 5000 + 5000)))
  ∧ chunks "" = []
  ∧ length (messages_groups (messages s)) = chunk_count (messages s)
  ∧ (answers E →
     ∃ s', _summarize_messages E s = (Ok tt, s')
           ∧ length (llm_calls s') = length (llm_calls s) + chunk_count (messages s)).
Proof.
  split; [|split; [|split; [|split]]].
  - unfold messages_groups. induction (messages s) as [|m ms IH]; [done|].
    by rewrite bind_cons, fmap_cons, concat_cons, IH.
  - intros c. split; [apply chunks_concat|]. split; [apply chunks_length|].
    split; [apply chunks_bounds | apply chunks_lookup].
  - reflexivity.
  - apply messages_groups_length.
  - intros Hanswers.
    destruct (summarize_messages_ok E s Hanswers) as (merged & calls & Hrun & Hlen).
    eexists. split; [exact Hrun|]. simpl. by rewrite length_app, Hlen.
Qed.


(** ** The claims about the dispatcher and the dispatched action *)

(** C4: when the tool-usage parser yields a call whose tool name matches
    no registered tool under either rule, [_use_tool] does not raise: it
    returns the catalogue's wrong-tool-name text, built from the
    requested name and the case-folded tool names joined by [", "], and
    the state is untouched, so no tool was used. *)
Theorem unknown_tool_name_is_reported (E : Collaborators) (cfg : Config)
    (a : AgentAction) (tool_calling : ToolCalling) (s : Executor) :
  tool_usage_parse E (text a) = inl tool_calling →
  (∀ t, t ∈ tools cfg →
     PyStr.strip (PyStr.casefold (tool_name tool_calling))
       ≠ PyStr.strip (PyStr.casefold (name t))
     ∧ PyStr.replace "_" " " (PyStr.casefold (tool_name tool_calling))
       ≠ PyStr.strip (PyStr.casefold (name t))) →
  _use_tool E cfg a s =
    (Ok (wrong_tool_name (_i18n E) (tool_name tool_calling)
           (PyStr.join ", " ((λ t, PyStr.casefold (name t)) <$> tools cfg))),
     s)
  ∧ tool_uses (snd (_use_tool E cfg a s)) = tool_uses s.
Proof.
  intros Hparse Hnone.
  assert (Hmatch : tool_matches cfg (tool_name tool_calling) = false).
  { apply not_true_is_false. rewrite tool_matches_spec.
    intros (t & Hin & Hor). destruct (Hnone t Hin) as [H1 H2]. by destruct Hor. }
  rewrite (use_tool_unmatched E cfg a tool_calling s Hparse Hmatch). done.
Qed.

(** What the two tests of lines 172-176 accept: a requested name matches
    exactly when, for some tool, the case-folded and trimmed requested name equals the
    case-folded and trimmed registered name, or the case-folded requested
    name with underscores replaced by spaces (not trimmed) equals the
    case-folded and trimmed registered name.  A tool registered as
    "Web Search" is matched by "web_search", "WEB SEARCH" and
    "web search".  A matched request uses the tool: the use is recorded
    and its text is the result. *)
Theorem tool_name_resolution (E : Collaborators) (cfg : Config) :
  (∀ requested,
     tool_matches cfg requested = true
     ↔ ∃ t, t ∈ tools cfg ∧
         (PyStr.strip (PyStr.casefold requested) = PyStr.strip (PyStr.casefold (name t))
          ∨ PyStr.replace "_" " " (PyStr.casefold requested)
            = PyStr.strip (PyStr.casefold (name t))))
  ∧ ({| name := "Web Search" |} ∈ tools cfg →
     tool_matches cfg "web_search" = true
     ∧ tool_matches cfg "WEB SEARCH" = true
     ∧ tool_matches cfg "web search" = true)
  ∧ (∀ a tool_calling s,
       tool_usage_parse E (text a) = inl tool_calling →
       tool_matches cfg (tool_name tool_calling) = true →
       _use_tool E cfg a s =
         (Ok (tool_usage_use E tool_calling (text a)),
          set_tool_uses (tool_uses s ++ [(tool_calling, text a)]) s)).
Proof.
  split; [apply tool_matches_spec|]. split.
  - intros Hin. rewrite !tool_matches_spec.
    split; [|split]; exists {| name := "Web Search" |}; (split; [exact Hin|]).
    + right. reflexivity.
    + left. reflexivity.
    + left. reflexivity.
  - intros a tc s. apply use_tool_matched.
Qed.

(** C8, as the code has it: for every action the loop dispatches, the
    dispatch returns a text, and the loop appends
    [NL "Observation: " result] to the action's text; the action's
    [result] field is set to the tool result exactly when a step callback
    is configured, which is then called with the completed action, and is
    left as it was otherwise.  The tool name and input stay as parsed. *)
Theorem observation_is_appended (E : Collaborators) (cfg : Config)
    (a : AgentAction) (s : Executor) :
  ∃ action_result s1 a',
    _use_tool E cfg a s = (Ok action_result, s1)
    ∧ text a' = text a +:+ NL +:+ "Observation: " +:+ action_result
    ∧ result a' = (if step_callback cfg then Some action_result else result a)
    ∧ tool a' = tool a ∧ tool_input a' = tool_input a
    ∧ observe E cfg a s =
        (Ok a', if step_callback cfg
                then set_step_callbacks (step_callbacks s1 ++ [a']) s1
                else s1).
Proof.
  destruct (use_tool_returns E cfg a s) as (action_result & s1 & Huse).
  exists action_result, s1.
  unfold observe, run_step_callback, bind. rewrite Huse.
  destruct (step_callback cfg).
  - exists (set_result (Some action_result)
              (set_text (text a +:+ NL +:+ "Observation: " +:+ action_result) a)).
    repeat split; reflexivity.
  - exists (set_text (text a +:+ NL +:+ "Observation: " +:+ action_result) a).
    repeat split; reflexivity.
Qed.

(** ** The claims about the loop *)

Section ForcedAnswer.
Context (E : Collaborators) (cfg : Config).

Lemma force_policy_terminal a s :
  _should_force_answer E cfg s = true → have_forced_answer s = true →
  force_policy E cfg a s =
    (Ok (Return {| output := force_final_answer_error (_i18n E) (text a);
                   final_text := text a |}), s).
Proof. intros Hforce Hflag. unfold force_policy, bind, gets. by rewrite Hforce, Hflag. Qed.

Lemma force_policy_first a s :
  _should_force_answer E cfg s = true → have_forced_answer s = false →
  let noticed := set_text (text a +:+ NL +:+ force_final_answer (_i18n E)) a in
  force_policy E cfg a s =
    (Ok (Next (Some (Action noticed))),
     set_messages (messages s ++ [ _format_msg (text noticed) "assistant" ])
       (set_have_forced_answer true s)).
Proof. intros Hforce Hflag. unfold force_policy, bind, gets. by rewrite Hforce, Hflag. Qed.

Lemma force_policy_idle a s :
  _should_force_answer E cfg s = false →
  force_policy E cfg a s =
    (Ok (Next (Some (Action a))),
     set_messages (messages s ++ [ _format_msg (text a) "assistant" ]) s).
Proof. intros Hforce. unfold force_policy, bind, gets. by rewrite Hforce. Qed.

(** The only [return] inside the loop is the forced terminal finish. *)
Lemma turn_return formatted_answer s v s' :
  turn E cfg formatted_answer s = (Ok (Return v), s') →
  have_forced_answer s' = true ∧ _should_force_answer E cfg s' = true
  ∧ ∃ a, v = {| output := force_final_answer_error (_i18n E) (text a);
                final_text := text a |}.
Proof.
  unfold turn. intros Hrun.
  apply bind_inv in Hrun as [(go & s1 & _ & Hrun)|[(e & _ & [=])|[_ [=]]]].
  destruct go; [|by injection Hrun]. unfold model_turn in Hrun.
  apply bind_inv in Hrun as [(ms & s2 & _ & Hrun)|[(e & _ & [=])|[_ [=]]]].
  apply bind_inv in Hrun as [(answer & s3 & _ & Hrun)|[(e & _ & [=])|[_ [=]]]].
  apply bind_inv in Hrun as [(u & s4 & _ & Hrun)|[(e & _ & [=])|[_ [=]]]].
  apply bind_inv in Hrun as [(fa & s5 & _ & Hrun)|[(e & _ & [=])|[_ [=]]]].
  destruct fa as [a|f]; [|by injection Hrun]. unfold on_action in Hrun.
  apply bind_inv in Hrun as [(a' & s6 & _ & Hrun)|[(e & _ & [=])|[_ [=]]]].
  unfold force_policy, bind, gets, keep_action, append_message, modify, ret in Hrun.
  destruct (_should_force_answer E cfg s6) eqn:Hforce; [|by injection Hrun].
  destruct (have_forced_answer s6) eqn:Hflag; [|by injection Hrun].
  injection Hrun as <- <-. eauto.
Qed.

(** A [return] in any turn of the [try] block ends the block, and with it
    the call of [_invoke_loop]. *)
Lemma try_while_returned fuel formatted_answer s v s' :
  try_while E cfg fuel formatted_answer s = (Returned v, s') →
  have_forced_answer s' = true ∧ _should_force_answer E cfg s' = true
  ∧ ∃ a, v = {| output := force_final_answer_error (_i18n E) (text a);
                final_text := text a |}.
Proof.
  revert formatted_answer s; induction fuel as [|fuel IH]; intros fa s.
  - by destruct fa as [[a|f]|].
  - destruct fa as [[a|f]|]; simpl; try done.
    all: destruct (turn E cfg _ s) as [[[fa1|v1]|e1|] s2] eqn:Hturn; try done.
    all: try apply IH.
    all: intros [= <- <-]; by apply turn_return in Hturn.
Qed.

Lemma return_ends_the_block fuel formatted_answer s v s' :
  is_finish formatted_answer = false →
  turn E cfg formatted_answer s = (Ok (Return v), s') →
  try_while E cfg (S fuel) formatted_answer s = (Returned v, s').
Proof.
  intros Hnf Hturn. simpl.
  destruct formatted_answer as [[a|f]|]; try done; by rewrite Hturn.
Qed.

Lemma next_continues_the_block fuel formatted_answer s formatted_answer' s1 :
  is_finish formatted_answer = false →
  turn E cfg formatted_answer s = (Ok (Next formatted_answer'), s1) →
  try_while E cfg (S fuel) formatted_answer s = try_while E cfg fuel formatted_answer' s1.
Proof.
  intros Hnf Hturn. simpl.
  destruct formatted_answer as [[a|f]|]; try done; by rewrite Hturn.
Qed.

Lemma returned_leaves_the_loop fuel formatted_answer s v s' :
  try_while E cfg fuel formatted_answer s = (Returned v, s') →
  _invoke_loop E cfg (S fuel) formatted_answer s = (Ok (Some (Finish v)), s').
Proof. intros Htry. simpl. by rewrite Htry. Qed.

End ForcedAnswer.

(** The forced answer within one call of [_invoke_loop].  The
    [have_forced_answer] flag, once true, stays true across
    [_invoke_loop] with all its re-entries and across [invoke], so it
    goes from false to true at most once.  When the forced-answer
    predicate fires after a dispatch while the flag is already true, the
    turn returns a finish whose text is the action's accumulated text and
    whose output is the catalogue's forced-answer error around that text,
    a [return] in any turn ends the [try] block and the call of
    [_invoke_loop] running it returns that finish; this is the only
    [return] inside the loop.  With the flag true no notice is
    appended: the turn ends in that finish, or the action's text joins
    the conversation as it is.  The notice is appended only while the
    flag is false, and that turn sets the flag. *)
Theorem forced_answer_at_most_once (E : Collaborators) (cfg : Config) :
  (∀ fuel formatted_answer,
     preserves flag_stays (_invoke_loop E cfg fuel formatted_answer))
  ∧ (∀ fuel inputs, preserves flag_stays (invoke E cfg fuel inputs))
  ∧ (∀ a a' s s1,
       observe E cfg a s = (Ok a', s1) →
       _should_force_answer E cfg s1 = true → have_forced_answer s1 = true →
       on_action E cfg a s =
         (Ok (Return {| output := force_final_answer_error (_i18n E) (text a');
                        final_text := text a' |}), s1))
  ∧ (∀ fuel formatted_answer s v s',
       is_finish formatted_answer = false →
       turn E cfg formatted_answer s = (Ok (Return v), s') →
       try_while E cfg (S fuel) formatted_answer s = (Returned v, s'))
  ∧ (∀ fuel formatted_answer s formatted_answer' s1,
       is_finish formatted_answer = false →
       turn E cfg formatted_answer s = (Ok (Next formatted_answer'), s1) →
       try_while E cfg (S fuel) formatted_answer s
       = try_while E cfg fuel formatted_answer' s1)
  ∧ (∀ fuel formatted_answer s v s',
       try_while E cfg fuel formatted_answer s = (Returned v, s') →
       _invoke_loop E cfg (S fuel) formatted_answer s = (Ok (Some (Finish v)), s')
       ∧ have_forced_answer s' = true ∧ _should_force_answer E cfg s' = true
       ∧ ∃ a, v = {| output := force_final_answer_error (_i18n E) (text a);
                     final_text := text a |})
  ∧ (∀ a s r s',
       have_forced_answer s = true →
       force_policy E cfg a s = (r, s') →
       (r = Ok (Return {| output := force_final_answer_error (_i18n E) (text a);
                          final_text := text a |}) ∧ s' = s)
       ∨ (r = Ok (Next (Some (Action a)))
          ∧ s' = set_messages (messages s ++ [ _format_msg (text a) "assistant" ]) s))
  ∧ (∀ a s,
       _should_force_answer E cfg s = true → have_forced_answer s = false →
       let noticed := set_text (text a +:+ NL +:+ force_final_answer (_i18n E)) a in
       force_policy E cfg a s =
         (Ok (Next (Some (Action noticed))),
          set_messages (messages s ++ [ _format_msg (text noticed) "assistant" ])
            (set_have_forced_answer true s))).
Proof.
  split; [apply invoke_loop_flag_stays|].
  split.
  { intros fuel inputs. apply invoke_preserves; try apply _.
    - apply flag_stays_tolerates.
    - unfold flag_stays. auto.
    - apply invoke_loop_flag_stays. }
  split.
  { intros a a' s s1 Hobs Hforce Hflag. unfold on_action.
    rewrite (bind_ok _ _ _ _ _ Hobs). by apply force_policy_terminal. }
  split; [apply return_ends_the_block|].
  split; [apply next_continues_the_block|].
  split.
  { intros fuel fa s v s' Htry. split; [by apply returned_leaves_the_loop|].
    by eapply try_while_returned. }
  split; [| apply force_policy_first].
  intros a s r s' Hflag Hrun.
  destruct (_should_force_answer E cfg s) eqn:Hforce.
  - rewrite force_policy_terminal in Hrun by done. injection Hrun as <- <-. by left.
  - rewrite force_policy_idle in Hrun by done. injection Hrun as <- <-. by right.
Qed.

(** C6: with [respect_context_window] false, [_handle_context_length]
    logs the fatal line and raises [SystemExit] with the operator-facing
    message; it never returns.  [SystemExit] is not an [Exception], so no
    handler of the loop takes it: when the [try] block raises a
    context-limit error, [_invoke_loop] ends in that [SystemExit], and
    whenever a run of [_invoke_loop] or of [invoke] has logged the fatal
    line, however deep the re-entry in which it happened, the run ended
    in that [SystemExit] and produced no finish. *)
Theorem overflow_without_summarizing_aborts (E : Collaborators) (cfg : Config) :
  respect_context_window cfg = false →
  (∀ s, _handle_context_length E cfg s =
          (Raise (SystemExit fatal_message), set_logged (logged s ++ [fatal_line]) s))
  ∧ is_Exception (SystemExit fatal_message) = false
  ∧ (∀ fuel formatted_answer s e fa' s1,
       try_while E cfg fuel formatted_answer s = (Raised e fa', s1) →
       (∀ error, e ≠ OutputParserException error) →
       is_Exception e = true → _is_context_limit_error E (str_exn e) = true →
       _invoke_loop E cfg (S fuel) formatted_answer s =
         (Raise (SystemExit fatal_message), set_logged (logged s1 ++ [fatal_line]) s1))
  ∧ (∀ fuel formatted_answer s r s',
       _invoke_loop E cfg fuel formatted_answer s = (r, s') →
       fatal_line ∉ logged s → fatal_line ∈ logged s' →
       r = Raise (SystemExit fatal_message))
  ∧ (∀ fuel inputs s r s',
       invoke E cfg fuel inputs s = (r, s') →
       fatal_line ∉ logged s → fatal_line ∈ logged s' →
       r = Raise (SystemExit fatal_message)).
Proof.
  intros Hno. split; [by apply handle_context_length_aborts|]. split; [done|].
  split; [|split].
  - intros fuel fa s e fa' s1 Htry Hnot Hexn Hlimit. simpl. rewrite Htry.
    destruct e; try (by destruct (Hnot error)); simpl in *; try done.
    all: rewrite Hlimit; unfold bind;
      by rewrite (handle_context_length_aborts E cfg Hno).
  - intros fuel fa s r s' Hrun Hbefore Hafter.
    destruct (invoke_loop_keeps_or_aborts E cfg Hno _ _ _ _ _ Hrun) as [Hkeep|Hr];
      [|exact Hr]. exfalso. apply Hbefore, Hkeep, Hafter.
  - intros fuel inputs s r s' Hrun Hbefore Hafter.
    destruct (invoke_keeps_or_aborts E cfg Hno _ _ _ _ _ Hrun) as [Hkeep|Hr];
      [|exact Hr]. exfalso. apply Hbefore, Hkeep, Hafter.
Qed.

(** C7: every operation of an invocation leaves the conversation a
    prefix of what it becomes, so it only grows by messages appended and
    no message in it changes, unless context-overflow recovery summarized
    in between.  Prompt seeding, a loop turn, an appended message and the
    training-record handler always extend it; [_invoke_loop], the
    feedback round and [invoke] extend it whenever the number of
    recoveries is unchanged.  Recovery itself either leaves the
    conversation as it is (it raised) or is counted and leaves exactly
    one message, the summary. *)
Theorem conversation_only_grows (E : Collaborators) (cfg : Config) :
  (∀ inputs, preserves extends (seed_prompt cfg inputs))
  ∧ (∀ formatted_answer, preserves extends (turn E cfg formatted_answer))
  ∧ (∀ m s, append_message m s = (Ok tt, set_messages (messages s ++ [m]) s))
  ∧ (∀ result human_feedback,
       preserves grows (_handle_crew_training_output cfg result human_feedback))
  ∧ (∀ fuel formatted_answer, preserves grows (_invoke_loop E cfg fuel formatted_answer))
  ∧ (∀ fuel formatted_answer,
       preserves grows (feedback_round E cfg fuel formatted_answer))
  ∧ (∀ fuel inputs, preserves grows (invoke E cfg fuel inputs))
  ∧ (∀ s r s',
       _handle_context_length E cfg s = (r, s') →
       (r ≠ Ok tt ∧ messages s' = messages s)
       ∨ (r = Ok tt ∧ respect_context_window cfg = true
          ∧ recoveries s' = S (recoveries s)
          ∧ ∃ merged_summary,
              messages s' = [ _format_msg (summary (_i18n E) merged_summary) "user" ])).
Proof.
  assert (Herr : ∀ s line, grows s (set_logged (logged s ++ [("error", line)]) s)).
  { intros s line. unfold grows. rewrite recoveries_logged_other by done.
    split; [lia | reflexivity]. }
  split.
  { intros inputs. apply seed_prompt_preserves; first [apply _ | apply extends_tolerates]. }
  split.
  { intros fa. apply turn_preserves; first [apply _ | apply extends_tolerates]. }
  split; [done|].
  split.
  { intros result fb. apply training_output_preserves; try apply _;
      [apply grows_tolerates | apply Herr]. }
  split; [apply invoke_loop_grows|].
  split.
  { intros fuel fa. apply feedback_round_preserves; try apply _;
      [apply grows_tolerates | apply Herr | apply invoke_loop_grows]. }
  split.
  { intros fuel inputs. apply invoke_preserves; try apply _;
      [apply grows_tolerates | apply Herr | apply invoke_loop_grows]. }
  intros s r s' Hrun.
  apply handle_context_length_cases in Hrun
    as [_ [(_ & -> & ->)|(Hresp & Hlog & [[-> Hmsg]|[Hr Hmsg]])]].
  - left. done.
  - right. repeat split; try done.
    unfold recoveries. rewrite Hlog, filter_app, length_app.
    rewrite filter_cons_True by done. simpl. lia.
  - left. done.
Qed.

(** ** Fuel and [invoke] *)

Lemma fuel_monotone_const {A} (m : M A) : fuel_monotone (λ _, m).
Proof. intros n k s r s' Hrun _ _. exact Hrun. Qed.

Lemma fuel_monotone_bind {A B} (m : nat → M A) (f : nat → A → M B) :
  fuel_monotone m → (∀ a, fuel_monotone (λ n, f n a)) →
  fuel_monotone (λ n, bind (m n) (f n)).
Proof.
  intros Hm Hf n k s r s' Hrun Hr Hle. unfold bind in *.
  destruct (m n s) as [[a|e|] s1] eqn:Hmn.
  - rewrite (Hm n k s _ _ Hmn) by done. by apply (Hf a n k).
  - rewrite (Hm n k s _ _ Hmn) by done. exact Hrun.
  - injection Hrun as <- <-. done.
Qed.

Lemma invoke_loop_fuel_monotone E cfg formatted_answer :
  fuel_monotone (λ n, _invoke_loop E cfg n formatted_answer).
Proof. intros n k s r s' Hrun Hr Hle. by eapply invoke_loop_mono. Qed.

Lemma invoke_fuel_monotone E cfg inputs : fuel_monotone (λ n, invoke E cfg n inputs).
Proof.
  unfold invoke, feedback_round.
  repeat first
    [ apply invoke_loop_fuel_monotone
    | apply fuel_monotone_const
    | apply (fuel_monotone_bind (λ _, _) (λ _ _, _)); [ | intros ? ]
    | apply (fuel_monotone_bind (λ n, _invoke_loop E cfg n _) (λ _ _, _)); [ | intros ? ]
    | match goal with |- fuel_monotone (λ _, if ?b then _ else _) => destruct b end ].
Qed.

(** ** The loop drops what a re-entered loop returns *)

(** C1 fails on the code.  The model's first reply does not parse and its
    second reply is a final answer.  The [try] block raises the parser
    error with [formatted_answer] still [None]; the handler appends the
    error text and re-enters the loop, which returns the finish; the
    original call then returns its own [formatted_answer], [None], and
    [invoke] fails on [formatted_answer.output].  This holds for every
    amount of fuel from 3 on. *)
Theorem recovered_finish_is_dropped (n : nat) :
  try_while Run.stumbling Run.plain (2 + n) None (init ∅)
    = (Raised (OutputParserException Run.parse_error_text) None,
       set_iterations 1
         (set_llm_calls [ {| call_messages := []; call_stop := Some ["Observation:"] |} ]
            (init ∅)))
  ∧ fst (_invoke_loop Run.stumbling Run.plain (2 + n) None Run.reentry)
    = Ok (Some (Finish {| output := "4"; final_text := "Final Answer: 4" |}))
  ∧ _invoke_loop Run.stumbling Run.plain (3 + n) None (init ∅)
    = (Ok None, snd (_invoke_loop Run.stumbling Run.plain (2 + n) None Run.reentry))
  ∧ fst (invoke Run.stumbling Run.plain (3 + n) Run.inputs (init ∅))
    = Raise (AttributeError "'NoneType' object has no attribute 'output'").
Proof.
  assert (Hinner : ∃ s', _invoke_loop Run.stumbling Run.plain (2 + n) None Run.reentry
            = (Ok (Some (Finish {| output := "4"; final_text := "Final Answer: 4" |})), s')).
  { eexists. apply (invoke_loop_mono _ _ 2); [vm_compute; reflexivity | done | lia]. }
  destruct Hinner as [s' Hinner].
  assert (Htry : try_while Run.stumbling Run.plain (2 + n) None (init ∅)
    = (Raised (OutputParserException Run.parse_error_text) None,
       set_iterations 1
         (set_llm_calls [ {| call_messages := []; call_stop := Some ["Observation:"] |} ]
            (init ∅)))).
  { apply (try_while_mono _ _ 2); [vm_compute; reflexivity | done | lia]. }
  split; [exact Htry|]. split; [by rewrite Hinner|]. split.
  - change (3 + n) with (S (2 + n)). cbn [_invoke_loop]. rewrite Htry.
    unfold bind at 1. unfold append_message, modify.
    change (set_messages _ _) with Run.reentry.
    unfold bind. rewrite Hinner. reflexivity.
  - destruct (invoke Run.stumbling Run.plain (3 + n) Run.inputs (init ∅))
      as [r s1] eqn:Hrun.
    assert (H3 : ∃ s3, invoke Run.stumbling Run.plain 3 Run.inputs (init ∅)
              = (Raise (AttributeError "'NoneType' object has no attribute 'output'"), s3)).
    { eexists. vm_compute. reflexivity. }
    destruct H3 as [s3 H3].
    apply (invoke_fuel_monotone _ _ _ 3 (3 + n)) in H3; [| done | lia].
    rewrite Hrun in H3. by injection H3 as -> _.
Qed.

(** C3 fails on the code.  With [max_iter = 2] and the calculator
    registered, the model asks for the calculator twice, then replies
    with text the parser rejects, then asks for the calculator again.
    The second turn appends the notice and sets the flag.  The third
    reply raises the parser error; the handler appends the error text and
    re-enters the loop.  In the re-entered call the predicate fires with
    the flag set and the call returns the terminal finish of lines
    127-132.  The original call drops it and returns its own
    [formatted_answer], the action of the second turn, and [invoke] fails
    on [formatted_answer.output].  This holds for every amount of fuel
    from 4 on.  The same happens to a run that starts with the flag set
    and whose first reply is rejected: the re-entered call returns the
    terminal finish, the original call returns [None]. *)
Theorem forced_finish_is_dropped (n : nat) :
  try_while Chain.forcing Run.with_calculator (3 + n) None (init ∅)
  = (Raised (OutputParserException Run.parse_error_text) (Some (Action Chain.noticed)),
     Chain.raised)
  ∧ have_forced_answer Chain.raised = true
  ∧ _should_force_answer Chain.forcing Run.with_calculator Chain.raised = true
  ∧ fst (_invoke_loop Chain.forcing Run.with_calculator (3 + n)
           (Some (Action Chain.noticed)) Chain.reentry)
    = Ok (Some (Finish Chain.terminal))
  ∧ fst (_invoke_loop Chain.forcing Run.with_calculator (4 + n) None (init ∅))
    = Ok (Some (Action Chain.noticed))
  ∧ fst (invoke Chain.forcing Run.with_calculator (4 + n) Run.inputs (init ∅))
    = Raise (AttributeError "'AgentAction' object has no attribute 'output'")
  ∧ have_forced_answer Run.forced = true
  ∧ fst (_invoke_loop Chain.resuming Run.with_calculator (2 + n) None Chain.resumed)
    = Ok (Some (Finish Chain.terminal))
  ∧ fst (_invoke_loop Chain.resuming Run.with_calculator (3 + n) None Run.forced)
    = Ok None
  ∧ fst (invoke Chain.resuming Run.with_calculator (3 + n) Run.inputs Run.forced)
    = Raise (AttributeError "'NoneType' object has no attribute 'output'").
Proof.
  assert (Hinner : ∃ s', _invoke_loop Chain.forcing Run.with_calculator (3 + n)
                           (Some (Action Chain.noticed)) Chain.reentry
                         = (Ok (Some (Finish Chain.terminal)), s')).
  { eexists. apply (invoke_loop_mono _ _ 3); [vm_compute; reflexivity | discriminate | lia]. }
  destruct Hinner as [s' Hinner].
  assert (Htry : try_while Chain.forcing Run.with_calculator (3 + n) None (init ∅)
    = (Raised (OutputParserException Run.parse_error_text) (Some (Action Chain.noticed)),
       Chain.raised)).
  { apply (try_while_mono _ _ 3); [vm_compute; reflexivity | discriminate | lia]. }
  assert (Hfinal : ∀ E cfg inputs s k e,
            (∃ s3, invoke E cfg k inputs s = (Raise e, s3)) →
            fst (invoke E cfg (k + n) inputs s) = Raise e).
  { intros E cfg inputs s k e [s3 H3].
    apply (invoke_fuel_monotone _ _ _ k (k + n)) in H3; [| discriminate | lia].
    rewrite H3. reflexivity. }
  assert (Hloop : ∀ E cfg fa s k r,
            (∃ s3, _invoke_loop E cfg k fa s = (r, s3)) → r ≠ OutOfFuel →
            fst (_invoke_loop E cfg (k + n) fa s) = r).
  { intros E cfg fa s k r [s3 H3] Hr.
    apply (invoke_loop_mono _ _ k (k + n)) in H3; [| exact Hr | lia].
    rewrite H3. reflexivity. }
  split; [exact Htry|]. split; [vm_compute; reflexivity|].
  split; [vm_compute; reflexivity|].
  split; [rewrite Hinner; reflexivity|]. split.
  { change (4 + n) with (S (3 + n)). cbn [_invoke_loop]. rewrite Htry.
    unfold bind at 1. unfold append_message, modify.
    change (set_messages _ _) with Chain.reentry.
    unfold bind. rewrite Hinner. reflexivity. }
  split.
  { apply (Hfinal _ _ _ _ 4). eexists. vm_compute. reflexivity. }
  split; [reflexivity|]. split.
  { apply (Hloop _ _ _ _ 2); [| discriminate]. eexists. vm_compute. reflexivity. }
  split.
  { apply (Hloop _ _ _ _ 3); [| discriminate]. eexists. vm_compute. reflexivity. }
  apply (Hfinal _ _ _ _ 3). eexists. vm_compute. reflexivity.
Qed.

(** ** The second test of the dispatcher does not trim the request *)

(** C5 fails on the code.  The tool is registered as [" web search"],
    with a leading space, and the request is [" web_search"]: with its
    underscores replaced by spaces the request equals the registered name
    case-insensitively.  Line 172 trims the request, line 174 does not,
    while both trim the registered names: neither test accepts the
    request, the wrong-tool-name text is returned and no tool is used.
    With the trim of line 172 the second test would accept it. *)
Theorem padded_name_is_not_matched :
  let requested := " web_search" in
  tools Run.with_padded_name = [ {| name := " web search" |} ]
  ∧ PyStr.casefold (PyStr.replace "_" " " requested) = PyStr.casefold " web search"
  ∧ registered_names Run.with_padded_name = [ "web search" ]
  ∧ PyStr.strip (PyStr.casefold requested) = "web_search"
  ∧ PyStr.replace "_" " " (PyStr.casefold requested) = " web search"
  ∧ PyStr.strip (PyStr.replace "_" " " (PyStr.casefold requested))
    ∈ registered_names Run.with_padded_name
  ∧ tool_matches Run.with_padded_name requested = false
  ∧ _use_tool Run.quiet Run.with_padded_name (Run.action requested) (init ∅)
    = (Ok (wrong_tool_name Demo.i18n requested " web search"), init ∅).
Proof.
  assert (Hnames : registered_names Run.with_padded_name = [ "web search" ])
    by (vm_compute; reflexivity).
  repeat split; try (vm_compute; reflexivity).
  rewrite Hnames. apply list_elem_of_singleton. vm_compute. reflexivity.
Qed.

(** ** The training-record handler *)

(** C9 fails on the code.  With no human input pending, a saved record
    for the agent and a crew whose [_train_iteration] is the string
    ["1"], the first block indexes the agent's records with that string
    and raises [KeyError]; nothing is logged.  The second block tests the
    type of the iteration before using it, the first does not. *)
Theorem string_iteration_raises_key_error :
  ask_for_human_input Run.trained = false
  ∧ (_train_iteration <$> crew Run.string_iteration) = Some (Some (VStr "1"))
  ∧ _handle_crew_training_output Run.string_iteration
      {| output := "4"; final_text := "Final Answer: 4" |} None Run.trained
    = (Raise (KeyError (VStr "1")), Run.trained).
Proof. repeat split; vm_compute; reflexivity. Qed.

(** What does hold: without the [_train_iteration] attribute, or without
    a crew, the handler returns and touches neither the conversation nor
    the training file. *)
Lemma missing_iteration_only_logs cfg result human_feedback s :
  from_option _train_iteration None (crew cfg) = None →
  ∃ s', _handle_crew_training_output cfg result human_feedback s = (Ok tt, s')
        ∧ messages s' = messages s ∧ training_file s' = training_file s.
Proof.
  intros Hmissing.
  unfold _handle_crew_training_output, record_improved_output, record_initial_output,
    training_load, log, bind, gets, modify, ret.
  destruct (crew cfg) as [c|]; simpl in Hmissing; [rewrite Hmissing|].
  all: repeat match goal with
       | |- context [if ?b then _ else _] => destruct b
       | |- context [match ?x with Some _ => _ | None => _ end] => destruct x
       end; eexists; (split; [reflexivity | done]).
Qed.

(** ** Counterexamples to the claims as stated *)


(** C8 as stated fails: without a step callback the dispatched action
    gets the observation appended to its text, but its [result] field is
    not set. *)
Lemma result_is_not_set_without_callback :
  let a := Run.action "Calculator" in
  step_callback Run.with_calculator = false
  ∧ fst (_use_tool Run.calculating Run.with_calculator a (init ∅)) = Ok "4"
  ∧ fst (observe Run.calculating Run.with_calculator a (init ∅))
    = Ok {| tool := "Calculator"; tool_input := "";
            text := "Action: Calculator" +:+ NL +:+ "Observation: 4";
            result := None |}
  ∧ fst (turn Run.calculating Run.with_calculator None (init ∅))
    = Ok (Next (Some (Action
           {| tool := "Calculator"; tool_input := "";
              text := "Action: Calculator" +:+ NL +:+ "Observation: 4";
              result := None |}))).
Proof. repeat split; vm_compute; reflexivity. Qed.

(** ** The theorems at work in the small world *)

Lemma quiet_answers : answers Run.quiet.
Proof. intros before c. eexists. reflexivity. Defined.

(** Summarizing the two messages of 6000 and 3000 characters makes one
    call per chunk. *)
Lemma chunking_witness :
  answers Run.quiet
  ∧ ∃ s', _summarize_messages Run.quiet Run.two_messages = (Ok tt, s')
          ∧ length (llm_calls s')
            = length (llm_calls Run.two_messages) + chunk_count (messages Run.two_messages).
Proof.
  split; [exact quiet_answers|].
  exact (proj2 (proj2 (proj2 (proj2
           (chunking_partitions_each_message Run.quiet Run.two_messages))))
         quiet_answers).
Defined.


(** The forced-answer predicate fires on a dispatch made with the flag
    already set: the turn ends in the terminal finish. *)
Lemma forced_answer_witness :
  have_forced_answer Run.forced = true
  ∧ ∃ s1, on_action Run.calculating Run.with_calculator (Run.action "Calculator") Run.forced
          = (Ok (Return
                   {| output := force_final_answer_error Demo.i18n
                                  ("Action: Calculator" +:+ NL +:+ "Observation: 4");
                      final_text := "Action: Calculator" +:+ NL +:+ "Observation: 4" |}),
             s1).
Proof.
  split; [reflexivity|]. eexists.
  refine (proj1 (proj2 (proj2
            (forced_answer_at_most_once Run.calculating Run.with_calculator)))
            (Run.action "Calculator")
            {| tool := "Calculator"; tool_input := "";
               text := "Action: Calculator" +:+ NL +:+ "Observation: 4";
               result := None |}
            Run.forced _ _ _ _).
  - vm_compute. reflexivity.
  - vm_compute. reflexivity.
  - vm_compute. reflexivity.
Defined.

(** The unregistered ["calc_tool"] against the one tool ["Calculator"]. *)
Lemma unknown_tool_name_witness :
  tool_usage_parse Run.quiet (text (Run.action "calc_tool"))
    = inl {| tool_name := "calc_tool"; arguments := "" |}
  ∧ _use_tool Run.quiet Run.with_calculator (Run.action "calc_tool") (init ∅)
    = (Ok (wrong_tool_name Demo.i18n "calc_tool" "calculator"), init ∅).
Proof.
  split; [reflexivity|].
  refine (proj1 (unknown_tool_name_is_reported Run.quiet Run.with_calculator
                   (Run.action "calc_tool")
                   {| tool_name := "calc_tool"; arguments := "" |} (init ∅) eq_refl _)).
  intros t Hin. change (t ∈ [ {| name := "Calculator" |} ]) in Hin.
  apply list_elem_of_singleton in Hin. rewrite Hin.
  split; vm_compute; discriminate.
Defined.

(** The three spellings of ["Web Search"], and the tool used. *)
Lemma tool_name_resolution_witness :
  tool_matches Run.with_web_search "web_search" = true
  ∧ tool_matches Run.with_web_search "WEB SEARCH" = true
  ∧ tool_matches Run.with_web_search "web search" = true
  ∧ _use_tool Run.quiet Run.with_web_search (Run.action "web_search") (init ∅)
    = (Ok "4",
       set_tool_uses [ ({| tool_name := "web_search"; arguments := "" |},
                        "Action: web_search") ] (init ∅)).
Proof.
  destruct (tool_name_resolution Run.quiet Run.with_web_search) as (_ & Hthree & Huse).
  assert (Hin : {| name := "Web Search" |} ∈ tools Run.with_web_search).
  { change ({| name := "Web Search" |} ∈ [ {| name := "Web Search" |} ]).
    apply list_elem_of_singleton. reflexivity. }
  destruct (Hthree Hin) as (H1 & H2 & H3).
  split; [exact H1|]. split; [exact H2|]. split; [exact H3|].
  exact (Huse (Run.action "web_search") {| tool_name := "web_search"; arguments := "" |}
           (init ∅) eq_refl H1).
Defined.

(** A context-limit error on the first call, and no summarizing allowed. *)
Lemma overflow_abort_witness :
  respect_context_window Run.strict = false
  ∧ _invoke_loop Run.overflowing Run.strict 3 None (init ∅)
    = (Raise (SystemExit fatal_message),
       set_logged [fatal_line]
         (set_llm_calls [ {| call_messages := []; call_stop := Some ["Observation:"] |} ]
            (init ∅))).
Proof.
  split; [reflexivity|].
  destruct (overflow_without_summarizing_aborts Run.overflowing Run.strict eq_refl)
    as (_ & _ & Hloop & _).
  refine (Hloop 2 None (init ∅)
            (Exception "This model's maximum context length is 4097 tokens.")
            None _ _ _ _ _).
  - vm_compute. reflexivity.
  - intros error. discriminate.
  - reflexivity.
  - vm_compute. reflexivity.
Defined.

(** A whole invocation with one tool use: the conversation grew. *)
Lemma conversation_witness :
  ∃ r s', invoke Run.calculating Run.with_calculator 4 Run.inputs (init ∅) = (r, s')
          ∧ grows (init ∅) s'.
Proof.
  eexists _, _. split.
  - vm_compute. reflexivity.
  - refine (proj1 (proj2 (proj2 (proj2 (proj2 (proj2 (proj2
              (conversation_only_grows Run.calculating Run.with_calculator)))))))
              4 Run.inputs (init ∅) _ _ _).
    vm_compute. reflexivity.
Defined.

(** * Further properties of the executor *)

(** ** Relations kept by the loop, field by field *)

#[local] Instance adds_preorder {A} (f : Executor → list A) (P : A → Prop) :
  PreOrder (adds f P).
Proof.
  split.
  - intros s. exists []. by rewrite app_nil_r.
  - intros s1 s2 s3 (a1 & H1 & P1) (a2 & H2 & P2). exists (a1 ++ a2).
    split; [by rewrite H2, H1, app_assoc | by apply Forall_app].
Qed.

#[local] Instance untouched_preorder : PreOrder untouched.
Proof.
  split; unfold untouched.
  - by intros s.
  - intros s1 s2 s3 (? & ? & ?) (? & ? & ?). repeat split; congruence.
Qed.

#[local] Instance counts_preorder : PreOrder counts.
Proof.
  split; unfold counts.
  - intros s. split; [reflexivity | lia].
  - intros s1 s2 s3 (P12 & I12 & B12) (P23 & I23 & B23).
    split; [by etrans | lia].
Qed.

Section Frames.
Context (E : Collaborators) (cfg : Config).
Context (R : Executor → Executor → Prop) `{!PreOrder R}.
Hypothesis call_R : ∀ ms stop, preserves R (call_llm E ms stop).
Hypothesis messages_R : ∀ s l, R s (set_messages l s).
Hypothesis logged_R : ∀ s l, R s (set_logged l s).

Lemma frame_summarize_groups groups : preserves R (summarize_groups E groups).
Proof.
  induction groups as [|group rest IH]; simpl; preserves_go; [apply call_R | apply IH].
Qed.

Lemma frame_recovery : preserves R (_handle_context_length E cfg).
Proof.
  unfold _handle_context_length, _summarize_messages, log.
  preserves_go; first [apply logged_R | apply messages_R | apply frame_summarize_groups].
Qed.

Hypothesis iterations_R : ∀ s n, R s (set_iterations n s).
Hypothesis rpm_R : ∀ s n, R s (set_rpm_checks n s).
Hypothesis forced_R : ∀ s, R s (set_have_forced_answer true s).
Hypothesis observe_R : ∀ a, preserves R (observe E cfg a).

Lemma frame_turn formatted_answer : preserves R (turn E cfg formatted_answer).
Proof.
  unfold turn, rpm_gate, model_turn, _format_answer, on_action, force_policy,
    keep_action, append_message.
  preserves_go;
    first [apply call_R | apply messages_R | apply iterations_R | apply rpm_R
          | apply forced_R | apply observe_R].
Qed.

Lemma frame_loop fuel formatted_answer :
  preserves R (_invoke_loop E cfg fuel formatted_answer).
Proof.
  apply invoke_loop_preserves; try apply _.
  - apply frame_turn.
  - intros m. unfold append_message. preserves_go. apply messages_R.
  - apply frame_recovery.
Qed.

End Frames.

Section InvokeFrame.
Context (E : Collaborators) (cfg : Config).
Context (R : Executor → Executor → Prop) `{!PreOrder R}.
Hypothesis loop_R : ∀ fuel formatted_answer,
  preserves R (_invoke_loop E cfg fuel formatted_answer).
Hypothesis messages_R : ∀ s l, R s (set_messages l s).
Hypothesis logged_R : ∀ s l, R s (set_logged l s).
Hypothesis ask_R : ∀ s b, R s (set_ask_for_human_input b s).
Hypothesis human_R : ∀ s l, R s (set_human_prompts l s).
Hypothesis file_R : ∀ s d, R s (set_training_file d s).

Lemma frame_invoke fuel inputs : preserves R (invoke E cfg fuel inputs).
Proof.
  unfold invoke, feedback_round, seed_prompt, get_finish, _format_prompt, input_text,
    append_message, _handle_crew_training_output, record_improved_output,
    record_initial_output, set_improved_output, training_append, training_load,
    training_save, log.
  preserves_go;
    first [apply loop_R | apply messages_R | apply logged_R | apply ask_R
          | apply human_R | apply file_R].
Qed.

End InvokeFrame.

(** ** What the loop records *)

Section Records.
Context (E : Collaborators) (cfg : Config).

Lemma adds_other {A} (f : Executor → list A) (P : A → Prop) (s s' : Executor) :
  f s' = f s → adds f P s s'.
Proof. intros Heq. exists []. by rewrite app_nil_r. Qed.

Lemma call_llm_keeps {A} (f : Executor → list A) (P : A → Prop) ms stop :
  (∀ s l, f (set_llm_calls l s) = f s) →
  preserves (adds f P) (call_llm E ms stop).
Proof.
  intros Hf s r s'. unfold call_llm.
  destruct (llm_call E _ _); intros [= <- <-]; by apply adds_other.
Qed.

Lemma use_tool_registered a :
  preserves (adds tool_uses (registered_use E cfg)) (_use_tool E cfg a).
Proof.
  intros s r s'. unfold _use_tool.
  destruct (tool_usage_parse E (text a)) as [tc|msg] eqn:Hparse.
  - destruct (tool_matches cfg (tool_name tc)) eqn:Hmatch; intros [= <- <-].
    + exists [(tc, text a)]. split; [done|]. apply Forall_singleton. by split.
    + reflexivity.
  - intros [= <- <-]. reflexivity.
Qed.

Lemma observe_registered a :
  preserves (adds tool_uses (registered_use E cfg)) (observe E cfg a).
Proof.
  unfold observe, run_step_callback. preserves_go; [apply use_tool_registered|].
  by apply adds_other.
Qed.

(** The dispatch followed by lines 121-124, spelled out. *)
Lemma observation_frame a s :
  ∃ action_result s1 a',
    _use_tool E cfg a s = (Ok action_result, s1)
    ∧ text a' = text a +:+ NL +:+ "Observation: " +:+ action_result
    ∧ result a' = (if step_callback cfg then Some action_result else result a)
    ∧ observe E cfg a s =
        (Ok a', if step_callback cfg
                then set_step_callbacks (step_callbacks s1 ++ [a']) s1
                else s1)
    ∧ step_callbacks s1 = step_callbacks s.
Proof.
  destruct (use_tool_returns E cfg a s) as (action_result & s1 & Huse).
  exists action_result, s1.
  assert (Hcb : step_callbacks s1 = step_callbacks s).
  { revert Huse. unfold _use_tool.
    destruct (tool_usage_parse E (text a)) as [tc|msg];
      [destruct (tool_matches cfg (tool_name tc))|]; by intros [= _ <-]. }
  unfold observe, run_step_callback, bind. rewrite Huse.
  destruct (step_callback cfg).
  - exists (set_result (Some action_result)
              (set_text (text a +:+ NL +:+ "Observation: " +:+ action_result) a)).
    repeat split; done.
  - exists (set_text (text a +:+ NL +:+ "Observation: " +:+ action_result) a).
    repeat split; done.
Qed.

Lemma observe_completed a :
  preserves (adds step_callbacks (completed cfg)) (observe E cfg a).
Proof.
  intros s r s' Hrun.
  destruct (observation_frame a s) as (action_result & s1 & a' & Huse & Htext
    & Hresult & Hobs & Hs1).
  rewrite Hobs in Hrun. injection Hrun as <- <-.
  destruct (step_callback cfg) eqn:Hcb.
  - exists [a']. simpl. rewrite Hs1. split; [done|]. apply Forall_singleton.
    split; [done|]. eauto.
  - apply adds_other. by rewrite Hs1.
Qed.

Lemma observe_untouched a : preserves untouched (observe E cfg a).
Proof.
  unfold observe, run_step_callback, _use_tool. preserves_go; by intros.
Qed.

Lemma loop_untouched fuel formatted_answer :
  preserves untouched (_invoke_loop E cfg fuel formatted_answer).
Proof.
  apply frame_loop; try apply _; try (by intros).
  - intros ms stop s r s'. unfold call_llm.
    destruct (llm_call E _ _); by intros [= <- <-].
  - apply observe_untouched.
Qed.

End Records.

Section Counting.
Context (E : Collaborators) (cfg : Config).

Lemma counts_same s s' :
  llm_calls s' = llm_calls s → iterations s' = iterations s → counts s s'.
Proof. intros Hc Hi. unfold counts. rewrite Hc, Hi. split; [done | lia]. Qed.

Lemma call_llm_counts ms stop : preserves counts (call_llm E ms stop).
Proof.
  intros s r s'. unfold call_llm.
  destruct (llm_call E _ _); intros [= <- <-]; unfold counts; simpl;
    rewrite length_app; simpl; (split; [by apply prefix_app_r | lia]).
Qed.

Lemma on_action_counts a : preserves counts (on_action E cfg a).
Proof.
  unfold on_action, observe, run_step_callback, _use_tool, force_policy, keep_action,
    append_message.
  preserves_go; by apply counts_same.
Qed.

Lemma turn_counts formatted_answer : preserves counts (turn E cfg formatted_answer).
Proof.
  unfold turn. preserves_step.
  { unfold rpm_gate. preserves_go. by apply counts_same. }
  destruct a; [|preserves_step].
  intros s r s' Hrun. unfold model_turn in Hrun.
  apply bind_inv in Hrun as [(ms & s0 & [= <- <-] & Hrun)|[(e & [=] & _)|[[=] _]]].
  unfold bind at 1 in Hrun. unfold call_llm in Hrun. cbv zeta in Hrun.
  destruct (llm_call E _ _) as [answer|e].
  2: { injection Hrun as <- <-. unfold counts; simpl. rewrite length_app; simpl.
       split; [by apply prefix_app_r | lia]. }
  unfold bind at 1 in Hrun. unfold modify at 1 in Hrun.
  match type of Hrun with _ ?s2 = _ =>
    assert (Hs2 : counts s s2)
      by (unfold counts; simpl; rewrite length_app; simpl;
          split; [by apply prefix_app_r | lia]);
    transitivity s2; [exact Hs2|] end.
  revert Hrun. generalize (repair E cfg answer). intros answer'.
  match goal with |- _ ?s2 = _ → counts ?s2 _ => generalize s2 end.
  intros s2. unfold _format_answer.
  destruct (parse E answer') as [[a|f]|err]; unfold bind, ret, raise.
  - apply on_action_counts.
  - intros [= <- <-]. reflexivity.
  - intros [= <- <-]. reflexivity.
Qed.

Lemma loop_counts fuel formatted_answer :
  preserves counts (_invoke_loop E cfg fuel formatted_answer).
Proof.
  apply invoke_loop_preserves; try apply _.
  - apply turn_counts.
  - intros m. unfold append_message. preserves_go. by apply counts_same.
  - apply frame_recovery; try apply _.
    + apply call_llm_counts.
    + intros. by apply counts_same.
    + intros. by apply counts_same.
Qed.

End Counting.

(** X1: every tool use recorded during [_invoke_loop] or [invoke] is for
    a call that [ToolUsage.parse] made from the action's text and whose
    tool name one of the two membership tests accepts; the record of
    earlier uses is kept.  A tool is never used under an unregistered
    name. *)
Theorem only_registered_tools_are_used (E : Collaborators) (cfg : Config) :
  (∀ fuel formatted_answer,
     preserves (adds tool_uses (registered_use E cfg))
       (_invoke_loop E cfg fuel formatted_answer))
  ∧ (∀ fuel inputs,
       preserves (adds tool_uses (registered_use E cfg)) (invoke E cfg fuel inputs)).
Proof.
  assert (Hloop : ∀ fuel formatted_answer,
     preserves (adds tool_uses (registered_use E cfg))
       (_invoke_loop E cfg fuel formatted_answer)).
  { intros fuel fa. apply frame_loop; try apply _; try (intros; by apply adds_other).
    - intros ms stop. by apply call_llm_keeps.
    - apply observe_registered. }
  split; [exact Hloop|].
  intros fuel inputs. apply frame_invoke; try apply _; try (intros; by apply adds_other).
  exact Hloop.
Qed.

(** X2: the step callback is called only when one is configured, and
    every action handed to it during [_invoke_loop] or [invoke] has its
    result set and its text ending in [NL "Observation: " result]. *)
Theorem step_callback_sees_completed_actions (E : Collaborators) (cfg : Config) :
  (∀ fuel formatted_answer,
     preserves (adds step_callbacks (completed cfg))
       (_invoke_loop E cfg fuel formatted_answer))
  ∧ (∀ fuel inputs,
       preserves (adds step_callbacks (completed cfg)) (invoke E cfg fuel inputs))
  ∧ (step_callback cfg = false →
     ∀ fuel inputs s r s',
       invoke E cfg fuel inputs s = (r, s') → step_callbacks s' = step_callbacks s).
Proof.
  assert (Hloop : ∀ fuel formatted_answer,
     preserves (adds step_callbacks (completed cfg))
       (_invoke_loop E cfg fuel formatted_answer)).
  { intros fuel fa. apply frame_loop; try apply _; try (intros; by apply adds_other).
    - intros ms stop. by apply call_llm_keeps.
    - apply observe_completed. }
  assert (Hinvoke : ∀ fuel inputs,
     preserves (adds step_callbacks (completed cfg)) (invoke E cfg fuel inputs)).
  { intros fuel inputs. apply frame_invoke; try apply _;
      try (intros; by apply adds_other). exact Hloop. }
  split; [exact Hloop|]. split; [exact Hinvoke|].
  intros Hno fuel inputs s r s' Hrun.
  destruct (Hinvoke _ _ _ _ _ Hrun) as ([|a added] & Heq & Hall).
  - by rewrite app_nil_r in Heq.
  - apply Forall_cons in Hall as [[Hcb _] _]. congruence.
Qed.

(** X3: across [_invoke_loop] and [invoke] the record of model calls only
    grows, the iteration counter never goes down, and it goes up by at
    most the number of model calls made in between (the calls of the
    summarizer do not count as iterations). *)
Theorem iterations_follow_model_calls (E : Collaborators) (cfg : Config) :
  (∀ formatted_answer, preserves counts (turn E cfg formatted_answer))
  ∧ (∀ fuel formatted_answer,
       preserves counts (_invoke_loop E cfg fuel formatted_answer))
  ∧ (∀ fuel inputs, preserves counts (invoke E cfg fuel inputs)).
Proof.
  split; [apply turn_counts|]. split; [apply loop_counts|].
  intros fuel inputs. apply frame_invoke; try apply _;
    try (intros; by apply counts_same). apply loop_counts.
Qed.

(** ** The human is asked at most once *)

Section Feedback.
Context (E : Collaborators) (cfg : Config).

Lemma training_output_keeps_prompts result human_feedback s r s' :
  _handle_crew_training_output cfg result human_feedback s = (r, s') →
  human_prompts s' = human_prompts s ∧ ask_for_human_input s' = ask_for_human_input s.
Proof.
  revert s r s'.
  change (preserves (λ s s', human_prompts s' = human_prompts s
                             ∧ ask_for_human_input s' = ask_for_human_input s)
            (_handle_crew_training_output cfg result human_feedback)).
  assert (PreOrder (λ s s' : Executor, human_prompts s' = human_prompts s
                             ∧ ask_for_human_input s' = ask_for_human_input s)).
  { split; [by intros s | intros s1 s2 s3 [? ?] [? ?]; split; congruence]. }
  unfold _handle_crew_training_output, record_improved_output, record_initial_output,
    set_improved_output, training_append, training_load, training_save, log.
  preserves_go; done.
Qed.

Lemma seed_prompt_untouched inputs : preserves untouched (seed_prompt cfg inputs).
Proof.
  unfold seed_prompt, _format_prompt, input_text, append_message. preserves_go; done.
Qed.

Lemma feedback_round_prompts fuel formatted_answer s r s' :
  feedback_round E cfg fuel formatted_answer s = (r, s') →
  (s' = s ∧ ∃ e, r = Raise e)
  ∨ (∃ finish, formatted_answer = Some (Finish finish)
       ∧ human_prompts s' = human_prompts s ++ [output finish]
       ∧ (∀ v, r = Ok v → ask_for_human_input s' = false)).
Proof.
  unfold feedback_round. intros Hrun.
  apply bind_inv in Hrun as [(finish & s0 & Hget & Hrun)|[(e & Hget & ->)|[Hget _]]].
  2: { left. unfold get_finish in Hget.
       destruct formatted_answer as [[a|f]|]; inversion Hget; subst; eauto. }
  2: { unfold get_finish in Hget. by destruct formatted_answer as [[a|f]|]. }
  right. exists finish.
  assert (formatted_answer = Some (Finish finish) ∧ s0 = s) as [-> ->].
  { unfold get_finish in Hget.
    destruct formatted_answer as [[a|f]|]; inversion Hget; by subst. }
  split; [done|].
  apply bind_inv in Hrun as [(u & s1 & [= <- <-] & Hrun)|[(e & [=] & _)|[[=] _]]].
  assert (Htrain_keeps : ∀ r1 s2,
    (if from_option _train false (crew cfg)
     then _handle_crew_training_output cfg finish (Some (_ask_human_input E (output finish)))
     else ret tt) (set_human_prompts (human_prompts s ++ [output finish]) s) = (r1, s2) →
    human_prompts s2 = human_prompts s ++ [output finish]).
  { intros r1 s2 H. destruct (from_option _train false (crew cfg)).
    - by apply training_output_keeps_prompts in H as [-> _].
    - by injection H as _ <-. }
  apply bind_inv in Hrun as [(u1 & s2 & Htrain & Hrun)|[(e & Htrain & ->)|[Htrain ->]]].
  2,3: split; [by eapply Htrain_keeps | done].
  apply Htrain_keeps in Htrain.
  apply bind_inv in Hrun as [(u2 & s4 & [= <- <-] & Hrun)|[(e & [=] & _)|[[=] _]]].
  assert (Hu : preserves untouched
            (append_message
               (_format_msg ("Feedback: " +:+ _ask_human_input E (output finish)) "user") >>
             _invoke_loop E cfg fuel None)).
  { preserves_step; [unfold append_message; preserves_go; done|].
    apply loop_untouched. }
  apply Hu in Hrun as (Hp & _ & Ha). simpl in *. split; [congruence | by intros].
Qed.

End Feedback.

(** X4: one call of [invoke] asks the human at most once: the prompts
    shown grow by none or by exactly one, whatever the loop does and
    however often it re-enters, and one is shown only when the inputs ask
    for human input.  [_invoke_loop] itself never prompts the human and
    changes neither the human-input flag nor the training file.  When
    [invoke] returns, the human-input flag is off. *)
Theorem human_is_asked_at_most_once (E : Collaborators) (cfg : Config) :
  (∀ fuel formatted_answer,
     preserves untouched (_invoke_loop E cfg fuel formatted_answer))
  ∧ (∀ fuel inputs s r s',
       invoke E cfg fuel inputs s = (r, s') →
       (human_prompts s' = human_prompts s
        ∨ (truthy (default (VBool false) (inputs !! "ask_for_human_input")) = true
           ∧ ∃ out, human_prompts s' = human_prompts s ++ [out]))
       ∧ (∀ v, r = Ok v → ask_for_human_input s' = false)).
Proof.
  split; [apply loop_untouched|].
  intros fuel inputs s r s'. unfold invoke. intros Hrun.
  apply bind_inv in Hrun as [(u & s1 & Hseed & Hrun)|[(e & Hseed & ->)|[Hseed ->]]].
  2,3: apply seed_prompt_untouched in Hseed as (Hp & _ & _); split; [by left | done].
  apply seed_prompt_untouched in Hseed as (Hp1 & _ & _).
  apply bind_inv in Hrun as [(u2 & s2 & [= <- <-] & Hrun)|[(e & [=] & _)|[[=] _]]].
  set (asked := truthy (default (VBool false) (inputs !! "ask_for_human_input"))) in *.
  apply bind_inv in Hrun as [(fa & s3 & Hloop & Hrun)|[(e & Hloop & ->)|[Hloop ->]]].
  2,3: apply loop_untouched in Hloop as (Hp & _ & _); simpl in Hp;
       split; [left; congruence | done].
  apply loop_untouched in Hloop as (Hp3 & _ & Ha3). simpl in Hp3, Ha3.
  apply bind_inv in Hrun as [(asking & s4 & [= <- <-] & Hrun)|[(e & [=] & _)|[[=] _]]].
  rewrite Ha3 in Hrun.
  destruct asked eqn:Hasked.
  - apply bind_inv in Hrun as [(fa' & s5 & Hfb & Hrun)|[(e & Hfb & ->)|[Hfb ->]]].
    + apply feedback_round_prompts in Hfb as [[-> [e [=]]]|(finish & -> & Hp5 & Ha5)].
      assert (s' = s5) as ->.
      { unfold get_finish, bind, ret in Hrun.
        destruct fa' as [[a|f]|]; inversion Hrun; by subst. }
      split; [right; split; [done|]; exists (output finish); congruence|].
      intros v _. by eapply Ha5.
    + apply feedback_round_prompts in Hfb as [[-> _]|(finish & -> & Hp5 & _)].
      * split; [left; congruence | done].
      * split; [right; split; [done|]; exists (output finish); congruence | done].
    + apply feedback_round_prompts in Hfb as [[-> _]|(finish & -> & Hp5 & _)].
      * split; [left; congruence | done].
      * split; [right; split; [done|]; exists (output finish); congruence | done].
  - unfold bind at 1 in Hrun. unfold ret at 1 in Hrun.
    assert (s' = s3) as ->.
    { unfold get_finish, bind, ret in Hrun.
      destruct fa as [[a|f]|]; inversion Hrun; by subst. }
    split; [left; congruence | by intros].
Qed.

(** ** Runs of the loop *)

Section Runs.
Context (E : Collaborators) (cfg : Config).

Lemma set_rpm_checks_twice n k s :
  set_rpm_checks n (set_rpm_checks k s) = set_rpm_checks n s.
Proof. reflexivity. Qed.

Lemma denied_block (may_proceed : nat → bool) fuel formatted_answer s :
  request_within_rpm_limit cfg = Some may_proceed →
  (∀ n, may_proceed n = false) →
  is_finish formatted_answer = false →
  try_while E cfg fuel formatted_answer s
  = (Fuel, if fuel is O then s else set_rpm_checks (rpm_checks s + fuel) s).
Proof.
  intros Hgate Hdeny Hnf. revert s; induction fuel as [|fuel IH]; intros s.
  - by destruct formatted_answer as [[a|f]|].
  - assert (Hturn : turn E cfg formatted_answer s
                    = (Ok (Next formatted_answer), set_rpm_checks (S (rpm_checks s)) s)).
    { unfold turn, rpm_gate. rewrite Hgate. unfold bind, gets, modify, ret.
      by rewrite Hdeny. }
    destruct formatted_answer as [[a|f]|]; try done; simpl; rewrite Hturn, IH;
      (destruct fuel; [by rewrite Nat.add_1_r|]);
      rewrite set_rpm_checks_twice; simpl rpm_checks;
      do 2 f_equal; lia.
Qed.

(** The turn of a reply that parses as a final answer. *)
Lemma finish_turn formatted_answer s answer f :
  request_within_rpm_limit cfg = None →
  llm_call E (llm_calls s)
    {| call_messages := messages s;
       call_stop := if use_stop_words cfg then Some (stop cfg) else None |}
  = inl answer →
  parse E (repair E cfg answer) = ParsedOk (Finish f) →
  turn E cfg formatted_answer s
  = (Ok (Next (Some (Finish f))),
     set_iterations (iterations s + 1)
       (set_llm_calls
          (llm_calls s ++
             [ {| call_messages := messages s;
                  call_stop := if use_stop_words cfg then Some (stop cfg) else None |} ])
          s)).
Proof.
  intros Hgate Hcall Hparse.
  unfold turn, rpm_gate. rewrite Hgate. unfold bind at 1. unfold ret at 1.
  unfold model_turn, bind, gets, call_llm. cbv zeta. rewrite Hcall.
  unfold modify, _format_answer. rewrite Hparse. reflexivity.
Qed.

(** The turn in which the model call raises. *)
Lemma raising_turn formatted_answer s e :
  request_within_rpm_limit cfg = None →
  llm_call E (llm_calls s)
    {| call_messages := messages s;
       call_stop := if use_stop_words cfg then Some (stop cfg) else None |}
  = inr e →
  turn E cfg formatted_answer s
  = (Raise e,
     set_llm_calls
       (llm_calls s ++
          [ {| call_messages := messages s;
               call_stop := if use_stop_words cfg then Some (stop cfg) else None |} ])
       s).
Proof.
  intros Hgate Hcall.
  unfold turn, rpm_gate. rewrite Hgate. unfold bind at 1. unfold ret at 1.
  unfold model_turn, bind, gets, call_llm. cbv zeta. by rewrite Hcall.
Qed.

(** The turn of a reply that parses as an action: the call is recorded,
    the iteration counter goes up by one, and the rest of the turn is the
    dispatch and the forced-answer policy on that action. *)
Lemma action_turn formatted_answer s answer a :
  request_within_rpm_limit cfg = None →
  llm_call E (llm_calls s)
    {| call_messages := messages s;
       call_stop := if use_stop_words cfg then Some (stop cfg) else None |}
  = inl answer →
  parse E (repair E cfg answer) = ParsedOk (Action a) →
  turn E cfg formatted_answer s
  = on_action E cfg a
      (set_iterations (iterations s + 1)
         (set_llm_calls
            (llm_calls s ++
               [ {| call_messages := messages s;
                    call_stop := if use_stop_words cfg then Some (stop cfg) else None |} ])
            s)).
Proof.
  intros Hgate Hcall Hparse.
  unfold turn, rpm_gate. rewrite Hgate. unfold bind at 1. unfold ret at 1.
  unfold model_turn, bind, gets, call_llm. cbv zeta. rewrite Hcall.
  unfold modify, _format_answer. rewrite Hparse. reflexivity.
Qed.

(** A turn whose reply parses as an action, dispatched with the flag set
    and the predicate firing, ends the call of [_invoke_loop] that runs
    it: that call returns the finish of lines 127-132, and neither the
    conversation nor the flag changes after the dispatch. *)
Lemma second_trigger_ends_the_call fuel formatted_answer s answer a a' s2 :
  is_finish formatted_answer = false →
  request_within_rpm_limit cfg = None →
  llm_call E (llm_calls s)
    {| call_messages := messages s;
       call_stop := if use_stop_words cfg then Some (stop cfg) else None |}
  = inl answer →
  parse E (repair E cfg answer) = ParsedOk (Action a) →
  observe E cfg a
    (set_iterations (iterations s + 1)
       (set_llm_calls
          (llm_calls s ++
             [ {| call_messages := messages s;
                  call_stop := if use_stop_words cfg then Some (stop cfg) else None |} ])
          s))
  = (Ok a', s2) →
  _should_force_answer E cfg s2 = true →
  have_forced_answer s2 = true →
  _invoke_loop E cfg (S (S fuel)) formatted_answer s
  = (Ok (Some (Finish {| output := force_final_answer_error (_i18n E) (text a');
                         final_text := text a' |})), s2).
Proof.
  intros Hnf Hgate Hcall Hparse Hobs Hforce Hflag.
  apply returned_leaves_the_loop. apply return_ends_the_block; [done|].
  rewrite (action_turn formatted_answer s answer a Hgate Hcall Hparse).
  unfold on_action. rewrite (bind_ok _ _ _ _ _ Hobs).
  by apply force_policy_terminal.
Qed.

End Runs.

(** X5: while a configured rate-limit predicate denies, the loop makes no
    model call and appends nothing; each pass only consults the
    predicate, and the call of [_invoke_loop] never returns: whatever
    number of passes it is given, it is still running after them. *)
Theorem denied_rate_limit_spins (E : Collaborators) (cfg : Config)
    (may_proceed : nat → bool) (fuel : nat) (formatted_answer : option AnswerValue)
    (s : Executor) :
  request_within_rpm_limit cfg = Some may_proceed →
  (∀ n, may_proceed n = false) →
  is_finish formatted_answer = false →
  _invoke_loop E cfg (S (S fuel)) formatted_answer s
  = (OutOfFuel, set_rpm_checks (rpm_checks s + S fuel) s).
Proof.
  intros Hgate Hdeny Hnf. cbn [_invoke_loop].
  by rewrite (denied_block E cfg may_proceed (S fuel) formatted_answer s Hgate Hdeny Hnf).
Qed.

(** X7: an error of the model call that is neither a parser error nor a
    context-limit error is raised again by [_invoke_loop] as it is: the
    call is recorded, the conversation and the iteration counter are
    untouched, and no recovery runs. *)
Theorem other_errors_propagate (E : Collaborators) (cfg : Config)
    (fuel : nat) (formatted_answer : option AnswerValue) (s : Executor) (e : PyExn) :
  request_within_rpm_limit cfg = None →
  is_finish formatted_answer = false →
  llm_call E (llm_calls s)
    {| call_messages := messages s;
       call_stop := if use_stop_words cfg then Some (stop cfg) else None |}
  = inr e →
  (∀ error, e ≠ OutputParserException error) →
  is_Exception e && _is_context_limit_error E (str_exn e) = false →
  _invoke_loop E cfg (S (S fuel)) formatted_answer s
  = (Raise e,
     set_llm_calls
       (llm_calls s ++
          [ {| call_messages := messages s;
               call_stop := if use_stop_words cfg then Some (stop cfg) else None |} ])
       s).
Proof.
  intros Hgate Hnf Hcall Hnot Hother.
  pose proof (raising_turn E cfg formatted_answer s e Hgate Hcall) as Hturn.
  cbn [_invoke_loop].
  assert (Htry : try_while E cfg (S fuel) formatted_answer s
                 = (Raised e formatted_answer,
                    set_llm_calls
                      (llm_calls s ++
                         [ {| call_messages := messages s;
                              call_stop := if use_stop_words cfg
                                           then Some (stop cfg) else None |} ]) s)).
  { destruct formatted_answer as [[a|f]|]; try done; simpl; by rewrite Hturn. }
  rewrite Htry.
  destruct e; try (by destruct (Hnot error)); simpl in *; try done.
  all: by rewrite Hother.
Qed.

(** X8: when the model's first reply parses as a final answer, [invoke]
    seeds the prompt, makes exactly that one model call, uses no tool,
    does not prompt the human, counts one iteration and returns the
    answer's output; the final answer is not appended to the
    conversation, which holds the seeded prompt only. *)
Theorem immediate_final_answer (E : Collaborators) (cfg : Config) (fuel : nat)
    (inputs : gmap string PyVal) (s s0 : Executor) (answer : string) (f : AgentFinish) :
  request_within_rpm_limit cfg = None →
  truthy (default (VBool false) (inputs !! "ask_for_human_input")) = false →
  seed_prompt cfg inputs s = (Ok tt, s0) →
  llm_call E (llm_calls s0)
    {| call_messages := messages s0;
       call_stop := if use_stop_words cfg then Some (stop cfg) else None |}
  = inl answer →
  parse E (repair E cfg answer) = ParsedOk (Finish f) →
  invoke E cfg (S (S fuel)) inputs s
  = (Ok {[ "output" := output f ]},
     set_iterations (iterations s0 + 1)
       (set_llm_calls
          (llm_calls s0 ++
             [ {| call_messages := messages s0;
                  call_stop := if use_stop_words cfg then Some (stop cfg) else None |} ])
          (set_ask_for_human_input false s0))).
Proof.
  intros Hgate Hask Hseed Hcall Hparse.
  unfold invoke. rewrite (bind_ok _ _ _ _ _ Hseed).
  unfold bind at 1. unfold modify at 1. rewrite Hask.
  assert (Hloop : _invoke_loop E cfg (S (S fuel)) None (set_ask_for_human_input false s0)
    = (Ok (Some (Finish f)),
       set_iterations (iterations s0 + 1)
         (set_llm_calls
            (llm_calls s0 ++
               [ {| call_messages := messages s0;
                    call_stop := if use_stop_words cfg then Some (stop cfg) else None |} ])
            (set_ask_for_human_input false s0)))).
  { cbn [_invoke_loop try_while].
    rewrite (finish_turn E cfg None (set_ask_for_human_input false s0) answer f
               Hgate Hcall Hparse).
    by destruct fuel. }
  rewrite (bind_ok _ _ _ _ _ Hloop). reflexivity.
Qed.

(** ** Prompt seeding *)

Lemma replace_absent old new s :
  old ≠ EmptyString → PyStr.contains old s = false → PyStr.replace old new s = s.
Proof.
  intros Hold. destruct old as [|c old]; [done|]. unfold PyStr.replace.
  induction s as [|a s IH]; [done|].
  cbn [PyStr.contains PyStr.replace_go]. intros [Hp Hc]%orb_false_iff.
  rewrite Hp. f_equal. by apply IH.
Qed.

Section Seeding.
Context (cfg : Config).

Lemma input_text_cases inputs k s r s' :
  input_text inputs k s = (r, s') →
  s' = s
  ∧ ((∃ t, inputs !! k = Some (VStr t) ∧ r = Ok t)
     ∨ (inputs !! k = None ∧ r = Raise (KeyError (VStr k)))
     ∨ (∃ msg, r = Raise (TypeError msg))).
Proof.
  unfold input_text, getitem, bind. destruct (inputs !! k) as [[| | |t]|]; simpl;
    intros [= <- <-]; (split; [done|]); eauto.
Qed.

Lemma format_prompt_cases prompt inputs s r s' :
  _format_prompt prompt inputs s = (r, s') →
  s' = s
  ∧ ((∃ i n t,
        inputs !! "input" = Some (VStr i) ∧ inputs !! "tool_names" = Some (VStr n)
        ∧ inputs !! "tools" = Some (VStr t)
        ∧ r = Ok (PyStr.replace "{tools}" t
                    (PyStr.replace "{tool_names}" n (PyStr.replace "{input}" i prompt))))
     ∨ (∃ k, inputs !! k = None ∧ r = Raise (KeyError (VStr k)))
     ∨ (∃ msg, r = Raise (TypeError msg))).
Proof.
  unfold _format_prompt. intros Hrun.
  apply bind_inv in Hrun as [(i & s1 & H1 & Hrun)|[(e & H1 & ->)|[H1 ->]]];
    apply input_text_cases in H1 as [-> H1].
  2: { split; [done|]. destruct H1 as [(t & _ & [=])|[[Hk [= ->]]|[msg [= ->]]]]; eauto. }
  2: { destruct H1 as [(t & _ & [=])|[[_ [=]]|[msg [=]]]]. }
  destruct H1 as [(i' & Hi & [= <-])|[[_ [=]]|[msg [=]]]].
  apply bind_inv in Hrun as [(n & s2 & H2 & Hrun)|[(e & H2 & ->)|[H2 ->]]];
    apply input_text_cases in H2 as [-> H2].
  2: { split; [done|]. destruct H2 as [(t & _ & [=])|[[Hk [= ->]]|[msg [= ->]]]]; eauto. }
  2: { destruct H2 as [(t & _ & [=])|[[_ [=]]|[msg [=]]]]. }
  destruct H2 as [(n' & Hn & [= <-])|[[_ [=]]|[msg [=]]]].
  apply bind_inv in Hrun as [(t & s3 & H3 & Hrun)|[(e & H3 & ->)|[H3 ->]]];
    apply input_text_cases in H3 as [-> H3].
  2: { split; [done|]. destruct H3 as [(t & _ & [=])|[[Hk [= ->]]|[msg [= ->]]]]; eauto. }
  2: { destruct H3 as [(t & _ & [=])|[[_ [=]]|[msg [=]]]]. }
  destruct H3 as [(t' & Ht & [= <-])|[[_ [=]]|[msg [=]]]].
  injection Hrun as <- <-. split; [done|]. left. by exists i, n, t.
Qed.

Lemma seed_prompt_cases inputs s r s' :
  seed_prompt cfg inputs s = (r, s') →
  (r = Ok tt
   ∧ ∃ new, s' = set_messages (messages s ++ new) s
            ∧ role <$> new = (if bool_decide (is_Some (prompt cfg !! "system"))
                              then ["system"; "user"] else ["user"]))
  ∨ (s' = s
     ∧ ((∃ k, inputs !! k = None ∧ r = Raise (KeyError (VStr k)))
        ∨ (∃ msg, r = Raise (TypeError msg)))).
Proof.
  unfold seed_prompt. destruct (bool_decide _); intros Hrun.
  - apply bind_inv in Hrun as [(p1 & s1 & H1 & Hrun)|[(e & H1 & ->)|[H1 ->]]];
      apply format_prompt_cases in H1 as [-> H1].
    2: { right. split; [done|]. destruct H1 as [(? & ? & ? & _ & _ & _ & [=])|[H1|H1]].
         - left. destruct H1 as (k & Hk & [= ->]). eauto.
         - right. destruct H1 as (msg & [= ->]). eauto. }
    2: { destruct H1 as [(? & ? & ? & _ & _ & _ & [=])|[(? & _ & [=])|(? & [=])]]. }
    apply bind_inv in Hrun as [(p2 & s2 & H2 & Hrun)|[(e & H2 & ->)|[H2 ->]]];
      apply format_prompt_cases in H2 as [-> H2].
    2: { right. split; [done|]. destruct H2 as [(? & ? & ? & _ & _ & _ & [=])|[H2|H2]].
         - left. destruct H2 as (k & Hk & [= ->]). eauto.
         - right. destruct H2 as (msg & [= ->]). eauto. }
    2: { destruct H2 as [(? & ? & ? & _ & _ & _ & [=])|[(? & _ & [=])|(? & [=])]]. }
    injection Hrun as <- <-. left. split; [done|].
    exists [ _format_msg p1 "system"; _format_msg p2 "user" ]. split; [|done].
    unfold set_messages; simpl. by rewrite <- app_assoc.
  - apply bind_inv in Hrun as [(p1 & s1 & H1 & Hrun)|[(e & H1 & ->)|[H1 ->]]];
      apply format_prompt_cases in H1 as [-> H1].
    2: { right. split; [done|]. destruct H1 as [(? & ? & ? & _ & _ & _ & [=])|[H1|H1]].
         - left. destruct H1 as (k & Hk & [= ->]). eauto.
         - right. destruct H1 as (msg & [= ->]). eauto. }
    2: { destruct H1 as [(? & ? & ? & _ & _ & _ & [=])|[(? & _ & [=])|(? & [=])]]. }
    injection Hrun as <- <-. left. split; [done|].
    by exists [ _format_msg p1 "user" ].
Qed.

End Seeding.

(** X9: prompt seeding is all or nothing.  It either appends the rendered
    prompt, a system and a user message when the prompt configuration has
    a ["system"] entry and one user message otherwise, or it raises a
    [KeyError] for a key the inputs lack (or a [TypeError] for an input
    that is not a string) and leaves the executor as it was; in that case
    [invoke] raises the same error before any message is appended or any
    model call is made.  An [inputs] without ["input"] makes [invoke]
    raise [KeyError('input')]. *)
Theorem prompt_seeding_is_all_or_nothing (E : Collaborators) (cfg : Config)
    (inputs : gmap string PyVal) (s : Executor) :
  (∀ r s', seed_prompt cfg inputs s = (r, s') →
     (r = Ok tt
      ∧ ∃ new, s' = set_messages (messages s ++ new) s
               ∧ role <$> new = (if bool_decide (is_Some (prompt cfg !! "system"))
                                 then ["system"; "user"] else ["user"]))
     ∨ (s' = s
        ∧ ((∃ k, inputs !! k = None ∧ r = Raise (KeyError (VStr k)))
           ∨ (∃ msg, r = Raise (TypeError msg)))))
  ∧ (∀ e s', seed_prompt cfg inputs s = (Raise e, s') →
       ∀ fuel, invoke E cfg fuel inputs s = (Raise e, s))
  ∧ (inputs !! "input" = None →
     ∀ fuel, invoke E cfg fuel inputs s = (Raise (KeyError (VStr "input")), s)).
Proof.
  split; [apply seed_prompt_cases|]. split.
  - intros e s' Hseed fuel.
    pose proof (seed_prompt_cases cfg inputs s _ _ Hseed) as [[[=] _]|[-> _]].
    unfold invoke. by rewrite (bind_raise _ _ _ _ _ Hseed).
  - intros Hmissing fuel. unfold invoke.
    apply bind_raise. unfold seed_prompt, _format_prompt, input_text, getitem.
    destruct (bool_decide _); unfold bind; by rewrite Hmissing.
Qed.

(** X10: a prompt that holds none of the three placeholders is rendered
    unchanged, whatever the input texts are. *)
Theorem prompt_without_placeholders_is_kept (prompt : string)
    (inputs : gmap string PyVal) (i n t : string) (s : Executor) :
  inputs !! "input" = Some (VStr i) →
  inputs !! "tool_names" = Some (VStr n) →
  inputs !! "tools" = Some (VStr t) →
  PyStr.contains "{input}" prompt = false →
  PyStr.contains "{tool_names}" prompt = false →
  PyStr.contains "{tools}" prompt = false →
  _format_prompt prompt inputs s = (Ok prompt, s).
Proof.
  intros Hi Hn Ht H1 H2 H3.
  unfold _format_prompt, input_text, getitem, bind, ret.
  rewrite Hi. cbv beta iota. rewrite (replace_absent "{input}" i prompt) by done.
  rewrite Hn. cbv beta iota. rewrite (replace_absent "{tool_names}" n prompt) by done.
  rewrite Ht. cbv beta iota. by rewrite (replace_absent "{tools}" t prompt).
Qed.

(** ** Summarizing, call by call *)

Section Summaries.
Context (E : Collaborators).

Lemma summarize_groups_calls groups s replies s' :
  summarize_groups E groups s = (Ok replies, s') →
  s' = set_llm_calls (llm_calls s ++ (summary_call E <$> groups)) s
  ∧ length replies = length groups
  ∧ ∀ k group, groups !! k = Some group →
      ∃ reply, replies !! k = Some reply
               ∧ llm_call E (llm_calls s ++ (summary_call E <$> take k groups))
                   (summary_call E group) = inl reply.
Proof.
  revert s replies s'; induction groups as [|g rest IH]; intros s replies s'; simpl.
  - intros [= <- <-]. split; [rewrite app_nil_r; by destruct s|]. split; [done|].
    intros k group. by rewrite lookup_nil.
  - unfold bind at 1. unfold call_llm. cbv zeta. fold (summary_call E g).
    destruct (llm_call E (llm_calls s) (summary_call E g)) as [reply|e] eqn:Hcall;
      [|done].
    unfold bind at 1.
    destruct (summarize_groups E rest _) as [[replies'|e|] s1] eqn:Hrest; try done.
    intros [= <- <-]. apply IH in Hrest as (-> & Hlen & Hk).
    split; [simpl; rewrite <- app_assoc; by destruct s|]. split; [simpl; by rewrite Hlen|].
    intros [|k] group; simpl.
    + intros [= <-]. exists reply. split; [done|]. by rewrite app_nil_r.
    + intros Hg. destruct (Hk k group Hg) as (reply' & Hr & Hc). exists reply'.
      split; [done|]. simpl in Hc. by rewrite <- app_assoc in Hc.
Qed.

Lemma messages_groups_empty ms : total_length ms = 0 → messages_groups ms = [].
Proof.
  unfold messages_groups. induction ms as [|m ms IH]; [done|].
  rewrite total_length_cons. intros Hlen. rewrite bind_cons, IH by lia.
  destruct (content m) as [|c rest] eqn:Hc; [by rewrite chunks_unfold | simpl in Hlen; lia].
Qed.

End Summaries.

(** X11: recovery on a conversation without any text (no message, or
    only empty contents) makes no model call at all: it logs, and leaves
    the one summary message built from the empty merged summary, even
    with a model that would fail every call. *)
Theorem recovery_of_empty_conversation (E : Collaborators) (cfg : Config) (s : Executor) :
  respect_context_window cfg = true →
  total_length (messages s) = 0 →
  _handle_context_length E cfg s
  = (Ok tt,
     set_messages [ _format_msg (summary (_i18n E) "") "user" ]
       (set_logged (logged s ++ [summarizing_line]) s)).
Proof.
  intros Hrespect Hempty. unfold _handle_context_length. rewrite Hrespect.
  unfold bind at 1. unfold log, modify. unfold _summarize_messages, bind, gets.
  simpl messages. by rewrite messages_groups_empty.
Qed.

(** X12: each chunk is summarized by a call of its own that carries two
    messages only, the summarizer's system message and the instruction
    built from the chunk, and no stop words; the conversation is not sent
    along.  With a model that answers, the calls recorded are exactly
    these, in chunk order, and the summary message wraps the replies
    joined by single spaces, the [k]-th reply being the model's answer to
    the call for the [k]-th chunk. *)
Theorem chunks_are_summarized_in_isolation (E : Collaborators) (s : Executor) :
  answers E →
  ∃ replies,
    _summarize_messages E s
    = (Ok tt,
       set_messages [ _format_msg (summary (_i18n E) (PyStr.join " " replies)) "user" ]
         (set_llm_calls
            (llm_calls s ++ (summary_call E <$> messages_groups (messages s))) s))
    ∧ length replies = length (messages_groups (messages s))
    ∧ ∀ k group, messages_groups (messages s) !! k = Some group →
        ∃ reply, replies !! k = Some reply
                 ∧ llm_call E
                     (llm_calls s ++ (summary_call E <$> take k (messages_groups (messages s))))
                     (summary_call E group) = inl reply.
Proof.
  intros Hanswers.
  destruct (summarize_groups_ok E (messages_groups (messages s)) s Hanswers)
    as (replies & calls & Hrun & _).
  pose proof (summarize_groups_calls E _ _ _ _ Hrun) as (Hs & Hlen & Hk).
  exists replies. split; [|by split].
  unfold _summarize_messages, bind, gets. rewrite Hrun. unfold modify.
  by rewrite Hs.
Qed.

(** ** The training records, round by round *)

Section Training.
Context (cfg : Config).

Lemma nonempty_lookup {K V} `{Countable K} (d : gmap K V) k v :
  d !! k = Some v → nonempty d = true.
Proof.
  intros Hk. unfold nonempty. apply negb_true_iff, bool_decide_eq_false.
  intros ->. by rewrite lookup_empty in Hk.
Qed.

Lemma initial_round c it result feedback s :
  crew cfg = Some c → _train_iteration c = Some it → isinstance_int it = true →
  ask_for_human_input s = true →
  _handle_crew_training_output cfg result (Some feedback) s
  = (Ok tt,
     set_training_file
       (<[id (agent cfg) := <[key it := initial_record cfg result feedback]>
                               (default ∅ (training_file s !! id (agent cfg)))]>
          (training_file s)) s).
Proof.
  intros Hcrew Hit Hint Hask.
  unfold _handle_crew_training_output, record_improved_output, record_initial_output,
    training_append, training_load, training_save, bind, gets, modify, ret.
  repeat (cbv beta iota; progress rewrite ?Hask, ?andb_false_r, ?Hcrew, ?Hit, ?Hint).
  reflexivity.
Qed.


Lemma improved_round c it result human_feedback s by_iteration record :
  crew cfg = Some c → _train_iteration c = Some it →
  ask_for_human_input s = false →
  training_file s !! id (agent cfg) = Some by_iteration →
  by_iteration !! key it = Some record →
  _handle_crew_training_output cfg result human_feedback s
  = (Ok tt,
     set_training_file
       (<[id (agent cfg) :=
            <[key it := <["improved_output" := output result]> record]> by_iteration]>
          (training_file s)) s).
Proof.
  intros Hcrew Hit Hask Hagent Hrecord.
  unfold _handle_crew_training_output, record_improved_output, record_initial_output,
    set_improved_output, getitem, training_load, training_save, bind, gets, modify, ret.
  assert (Hne : nonempty by_iteration = true) by (by eapply nonempty_lookup).
  repeat (cbv beta iota;
          progress rewrite ?Hask, ?(nonempty_lookup _ _ _ Hagent), ?Hagent, ?Hcrew, ?Hit,
            ?Hrecord; cbn [default from_option Datatypes.id negb andb]; rewrite ?Hne).
  cbn [ask_for_human_input set_training_file]. rewrite Hask.
  by destruct human_feedback.
Qed.

Lemma improved_round_missing c it result human_feedback s by_iteration :
  crew cfg = Some c → _train_iteration c = Some it →
  ask_for_human_input s = false →
  training_file s !! id (agent cfg) = Some by_iteration →
  by_iteration ≠ ∅ →
  by_iteration !! key it = None →
  _handle_crew_training_output cfg result human_feedback s = (Raise (KeyError it), s).
Proof.
  intros Hcrew Hit Hask Hagent Hne Hrecord.
  unfold _handle_crew_training_output, record_improved_output, record_initial_output,
    set_improved_output, getitem, training_load, training_save, bind, gets, modify, ret,
    raise.
  assert (Hne' : nonempty by_iteration = true).
  { unfold nonempty. by apply negb_true_iff, bool_decide_eq_false. }
  repeat (cbv beta iota;
          progress rewrite ?Hask, ?(nonempty_lookup _ _ _ Hagent), ?Hagent, ?Hcrew, ?Hit,
            ?Hrecord; cbn [default from_option Datatypes.id negb andb]; rewrite ?Hne').
  reflexivity.
Qed.

End Training.


(** X14: with no human input pending and a saved record of the agent
    under the crew's iteration, the handler sets that record's
    ["improved_output"] to the result's output and saves; the record's
    other fields, the agent's other iterations and the other agents'
    records are as before.  When the agent has records but none under
    the iteration, the handler raises [KeyError] and saves nothing. *)
Theorem improved_output_updates_one_record (cfg : Config) (c : Crew) (it : PyVal)
    (result : AgentFinish) (human_feedback : option string) (s : Executor)
    (by_iteration : gmap PyVal TrainingRecord) :
  crew cfg = Some c → _train_iteration c = Some it →
  ask_for_human_input s = false →
  training_file s !! id (agent cfg) = Some by_iteration →
  (∀ record, by_iteration !! key it = Some record →
     ∃ s', _handle_crew_training_output cfg result human_feedback s = (Ok tt, s')
       ∧ (∃ by_iteration' record',
            training_file s' !! id (agent cfg) = Some by_iteration'
            ∧ by_iteration' !! key it = Some record'
            ∧ record' !! "improved_output" = Some (output result)
            ∧ (∀ field, field ≠ "improved_output" → record' !! field = record !! field)
            ∧ (∀ other, other ≠ key it → by_iteration' !! other = by_iteration !! other))
       ∧ (∀ other, other ≠ id (agent cfg) →
            training_file s' !! other = training_file s !! other)
       ∧ messages s' = messages s ∧ logged s' = logged s)
  ∧ (by_iteration ≠ ∅ → by_iteration !! key it = None →
     _handle_crew_training_output cfg result human_feedback s = (Raise (KeyError it), s)).
Proof.
  intros Hcrew Hit Hask Hagent. split.
  - intros record Hrecord.
    rewrite (improved_round cfg c it result human_feedback s by_iteration record)
      by done.
    eexists. split; [done|]. simpl. split; [|split; [|done]].
    + eexists _, _. rewrite lookup_insert_eq. split; [done|].
      rewrite lookup_insert_eq. split; [done|]. rewrite lookup_insert_eq.
      split; [done|]. split.
      * intros field Hfield. by rewrite lookup_insert_ne.
      * intros other Hother. by rewrite lookup_insert_ne.
    + intros other Hother. by rewrite lookup_insert_ne.
  - intros Hne Hmissing. by eapply improved_round_missing.
Qed.

(** X15: the two rounds compose.  After the feedback round has stored
    the initial record under an [int] iteration, a later call with no
    human input pending finds that record and adds the improved output
    to it: the saved record then holds the initial output, the human
    feedback and the improved output. *)
Theorem feedback_then_improvement (cfg : Config) (c : Crew) (it : PyVal)
    (first second : AgentFinish) (feedback : string) (s : Executor) :
  crew cfg = Some c → _train_iteration c = Some it → isinstance_int it = true →
  ask_for_human_input s = true →
  ∃ s1 s2 by_iteration record,
    _handle_crew_training_output cfg first (Some feedback) s = (Ok tt, s1)
    ∧ _handle_crew_training_output cfg second None (set_ask_for_human_input false s1)
      = (Ok tt, s2)
    ∧ training_file s2 !! id (agent cfg) = Some by_iteration
    ∧ by_iteration !! key it = Some record
    ∧ record !! "initial_output" = Some (output first)
    ∧ record !! "human_feedback" = Some feedback
    ∧ record !! "improved_output" = Some (output second).
Proof.
  intros Hcrew Hit Hint Hask.
  set (record0 := initial_record cfg first feedback).
  set (by0 := <[key it := record0]> (default ∅ (training_file s !! id (agent cfg)))).
  set (s1 := set_training_file (<[id (agent cfg) := by0]> (training_file s)) s).
  assert (Hagent : training_file (set_ask_for_human_input false s1) !! id (agent cfg)
                   = Some by0) by apply lookup_insert_eq.
  assert (Hrecord : by0 !! key it = Some record0) by apply lookup_insert_eq.
  exists s1. eexists. exists (<[key it := <["improved_output" := output second]> record0]> by0).
  exists (<["improved_output" := output second]> record0).
  split; [by apply (initial_round cfg c it)|].
  split; [by apply (improved_round cfg c it second None _ by0 record0)|].
  cbn [training_file set_training_file]. rewrite !lookup_insert_eq.
  split; [done|]. split; [done|].
  unfold record0, initial_record. by rewrite !lookup_insert.
Qed.

(** ** The repair of a reply *)

Lemma prefix_app_l p a b :
  String.prefix p a = true → String.prefix p (a +:+ b) = true.
Proof.
  revert a; induction p as [|c p IH]; intros a.
  - by destruct (a +:+ b).
  - destruct a as [|c' a]; [done|].
    change (String c' a +:+ b) with (String c' (a +:+ b)). cbn [String.prefix].
    destruct (Ascii.ascii_dec c c'); [apply IH | done].
Qed.

Lemma prefix_empty_r p : String.prefix p EmptyString = true → p = EmptyString.
Proof. by destruct p. Qed.

Lemma contains_app_l sep a b :
  PyStr.contains sep a = true → PyStr.contains sep (a +:+ b) = true.
Proof.
  induction a as [|c a IH].
  - cbn [PyStr.contains]. rewrite orb_false_r. intros ->%prefix_empty_r.
    by destruct b.
  - change (String c a +:+ b) with (String c (a +:+ b)). cbn [PyStr.contains].
    intros [Hp|Hc]%orb_true_iff; apply orb_true_iff.
    + left. by apply (prefix_app_l sep (String c a) b).
    + right. by apply IH.
Qed.

Lemma split_head_is_prefix sep s : ∃ rest, s = PyStr.split_head sep s +:+ rest.
Proof.
  induction s as [|c s [rest IH]]; cbn [PyStr.split_head].
  - destruct (String.prefix sep EmptyString); exists EmptyString; reflexivity.
  - destruct (String.prefix sep (String c s)).
    + exists (String c s). reflexivity.
    + exists rest. change (String c s = String c (PyStr.split_head sep s +:+ rest)).
      by rewrite <- IH.
Qed.

Lemma split_head_has_no_sep sep s :
  sep ≠ EmptyString → PyStr.contains sep (PyStr.split_head sep s) = false.
Proof.
  intros Hsep. induction s as [|c s IH]; cbn [PyStr.split_head].
  - destruct (String.prefix sep EmptyString) eqn:Hp; cbn [PyStr.contains];
      rewrite orb_false_r; destruct sep; done.
  - destruct (String.prefix sep (String c s)) eqn:Hp.
    + cbn [PyStr.contains]. rewrite orb_false_r. by destruct sep.
    + cbn [PyStr.contains]. rewrite IH, orb_false_r.
      apply not_true_is_false. intros Hp'.
      destruct (split_head_is_prefix sep s) as [rest Hrest].
      apply (prefix_app_l _ _ rest) in Hp'.
      change (String c (PyStr.split_head sep s) +:+ rest)
        with (String c (PyStr.split_head sep s +:+ rest)) in Hp'.
      rewrite <- Hrest in Hp'. congruence.
Qed.

Lemma contains_lstrip sep s :
  PyStr.contains sep (PyStr.lstrip s) = true → PyStr.contains sep s = true.
Proof.
  induction s as [|c s IH]; [done|]. cbn [PyStr.lstrip].
  destruct (PyStr.isspace c); [|done].
  intros H%IH. cbn [PyStr.contains]. rewrite H. apply orb_true_r.
Qed.

Lemma rstrip_is_prefix s : ∃ rest, s = PyStr.rstrip s +:+ rest.
Proof.
  induction s as [|c s [rest IH]]; [exists EmptyString; reflexivity|].
  cbn [PyStr.rstrip]. destruct (PyStr.rstrip s) as [|c' r] eqn:Hr.
  - destruct (PyStr.isspace c); [exists (String c s) | exists s]; reflexivity.
  - exists rest. change (String c s = String c (String c' r +:+ rest)). by rewrite <- IH.
Qed.

Lemma contains_strip sep s :
  PyStr.contains sep (PyStr.strip s) = true → PyStr.contains sep s = true.
Proof.
  unfold PyStr.strip. intros H. apply contains_lstrip.
  destruct (rstrip_is_prefix (PyStr.lstrip s)) as [rest Hrest].
  rewrite Hrest. by apply contains_app_l.
Qed.

(** X16: the repair of lines 106-114 changes a reply only when stop words
    are not used and the parser rejects the reply with the
    final-answer-and-action error; the repaired reply is then the text
    before the first ["Observation:"], trimmed, and it holds no
    ["Observation:"] marker any more.  In every other case the reply goes
    to the parser as the model gave it. *)
Theorem repair_cuts_at_first_observation (E : Collaborators) (cfg : Config)
    (answer : string) :
  (use_stop_words cfg = false →
   ∀ error, parse E answer = ParseError error →
     PyStr.contains (FINAL_ANSWER_AND_PARSABLE_ACTION_ERROR_MESSAGE E) error = true →
     repair E cfg answer = PyStr.strip (PyStr.split_head "Observation:" answer)
     ∧ PyStr.contains "Observation:" (repair E cfg answer) = false
     ∧ ∃ rest, answer = PyStr.split_head "Observation:" answer +:+ rest)
  ∧ (repair E cfg answer ≠ answer →
     use_stop_words cfg = false
     ∧ ∃ error, parse E answer = ParseError error
         ∧ PyStr.contains (FINAL_ANSWER_AND_PARSABLE_ACTION_ERROR_MESSAGE E) error = true).
Proof.
  split.
  - intros Hstop error Hparse Hfinal. unfold repair. rewrite Hstop, Hparse, Hfinal.
    split; [done|]. split; [|apply split_head_is_prefix].
    apply not_true_is_false. intros H%contains_strip.
    by rewrite split_head_has_no_sep in H.
  - unfold repair. destruct (use_stop_words cfg); [done|].
    destruct (parse E answer) as [v|error]; [done|].
    destruct (PyStr.contains _ error) eqn:Hfinal; [|done].
    intros _. split; [done|]. by exists error.
Qed.

(** ** The further properties at work in the small world *)

(** One calculator use during a whole invocation. *)
Lemma registered_tools_witness :
  ∃ r s', invoke Run.calculating Run.with_calculator 4 Run.inputs (init ∅) = (r, s')
          ∧ adds tool_uses (registered_use Run.calculating Run.with_calculator) (init ∅) s'
          ∧ length (tool_uses s') = 1.
Proof.
  eexists _, _. split; [vm_compute; reflexivity|]. split; [|reflexivity].
  refine (proj2 (only_registered_tools_are_used Run.calculating Run.with_calculator)
            4 Run.inputs (init ∅) _ _ _).
  vm_compute. reflexivity.
Defined.

(** The same invocation with a step callback configured. *)
Lemma step_callback_witness :
  ∃ r s', invoke Run.calculating Probe.with_callback 4 Run.inputs (init ∅) = (r, s')
          ∧ adds step_callbacks (completed Probe.with_callback) (init ∅) s'
          ∧ length (step_callbacks s') = 1.
Proof.
  eexists _, _. split; [vm_compute; reflexivity|]. split; [|reflexivity].
  refine (proj1 (proj2 (step_callback_sees_completed_actions
                          Run.calculating Probe.with_callback))
            4 Run.inputs (init ∅) _ _ _).
  vm_compute. reflexivity.
Defined.

(** Two model calls, two iterations. *)
Lemma iterations_witness :
  ∃ r s', invoke Run.calculating Run.with_calculator 4 Run.inputs (init ∅) = (r, s')
          ∧ counts (init ∅) s' ∧ iterations s' = 2%Z ∧ length (llm_calls s') = 2.
Proof.
  eexists _, _. split; [vm_compute; reflexivity|].
  split; [|split; reflexivity].
  refine (proj2 (proj2 (iterations_follow_model_calls Run.calculating Run.with_calculator))
            4 Run.inputs (init ∅) _ _ _).
  vm_compute. reflexivity.
Defined.

(** An invocation that asks for human input: one prompt, flag off. *)
Lemma human_feedback_witness :
  ∃ v s', invoke Run.quiet Run.plain 3 Probe.asking_inputs (init ∅) = (Ok v, s')
          ∧ human_prompts s' = ["done"] ∧ ask_for_human_input s' = false.
Proof.
  eexists _, _. split; [vm_compute; reflexivity|].
  destruct (proj2 (human_is_asked_at_most_once Run.quiet Run.plain)
              3 Probe.asking_inputs (init ∅) _ _ eq_refl) as [_ Hflag].
  split; [reflexivity | by eapply Hflag].
Defined.

(** Five passes under a denying rate limit: five checks, nothing else. *)
Lemma denied_rate_limit_witness :
  request_within_rpm_limit Probe.throttled = Some (λ _, false)
  ∧ _invoke_loop Run.quiet Probe.throttled 6 None (init ∅)
    = (OutOfFuel, set_rpm_checks 5 (init ∅)).
Proof.
  split; [reflexivity|].
  exact (denied_rate_limit_spins Run.quiet Probe.throttled (λ _, false) 4 None (init ∅)
           eq_refl (λ _, eq_refl) eq_refl).
Defined.

(** A rate-limit failure of the model client goes through the loop. *)
Lemma other_errors_witness :
  _is_context_limit_error Probe.failing "Rate limit reached for requests" = false
  ∧ _invoke_loop Probe.failing Run.plain 3 None (init ∅)
    = (Raise (Exception "Rate limit reached for requests"),
       set_llm_calls [ {| call_messages := []; call_stop := Some ["Observation:"] |} ]
         (init ∅)).
Proof.
  split; [vm_compute; reflexivity|].
  refine (other_errors_propagate Probe.failing Run.plain 1 None (init ∅)
            (Exception "Rate limit reached for requests") eq_refl eq_refl _ _ _).
  - vm_compute. reflexivity.
  - intros error. discriminate.
  - vm_compute. reflexivity.
Defined.

(** The model answers at once. *)
Lemma immediate_final_answer_witness :
  ∃ s', invoke Run.quiet Run.plain 2 Run.inputs (init ∅)
        = (Ok {[ "output" := "done" ]}, s')
        ∧ (role <$> messages s') = ["system"; "user"] ∧ tool_uses s' = [].
Proof.
  eexists. split; [|split].
  - refine (immediate_final_answer Run.quiet Run.plain 0 Run.inputs (init ∅) _
              "Final Answer: done" {| output := "done"; final_text := "Final Answer: done" |}
              eq_refl _ _ _ _).
    + vm_compute. reflexivity.
    + vm_compute. reflexivity.
    + vm_compute. reflexivity.
    + vm_compute. reflexivity.
  - vm_compute. reflexivity.
  - vm_compute. reflexivity.
Defined.

(** No inputs at all. *)
Lemma prompt_seeding_witness :
  (∅ : gmap string PyVal) !! "input" = None
  ∧ invoke Run.quiet Run.plain 3 ∅ (init ∅) = (Raise (KeyError (VStr "input")), init ∅).
Proof.
  split; [reflexivity|].
  exact (proj2 (proj2 (prompt_seeding_is_all_or_nothing Run.quiet Run.plain ∅ (init ∅)))
           eq_refl 3).
Defined.

(** A prompt without placeholders. *)
Lemma prompt_without_placeholders_witness :
  _format_prompt "You are an assistant." Run.inputs (init ∅)
  = (Ok "You are an assistant.", init ∅).
Proof.
  refine (prompt_without_placeholders_is_kept "You are an assistant." Run.inputs
            "a calculator" "" "" (init ∅) _ _ _ _ _ _); vm_compute; reflexivity.
Defined.

(** Recovery before anything was said, with a model that would fail. *)
Lemma empty_recovery_witness :
  total_length (messages (init ∅)) = 0
  ∧ fst (_handle_context_length Probe.failing Run.summarizing (init ∅)) = Ok tt
  ∧ llm_calls (snd (_handle_context_length Probe.failing Run.summarizing (init ∅))) = [].
Proof.
  split; [reflexivity|].
  rewrite (recovery_of_empty_conversation Probe.failing Run.summarizing (init ∅)
             eq_refl eq_refl).
  split; reflexivity.
Defined.

(** The three calls for the two long messages. *)
Lemma isolated_chunks_witness :
  answers Run.quiet
  ∧ ∃ s', _summarize_messages Run.quiet Run.two_messages = (Ok tt, s')
          ∧ (length ∘ call_messages <$> llm_calls s') = [2; 2; 2].
Proof.
  split; [exact quiet_answers|].
  destruct (chunks_are_summarized_in_isolation Run.quiet Run.two_messages quiet_answers)
    as (replies & Hrun & _ & _).
  eexists. split; [exact Hrun|]. vm_compute. reflexivity.
Defined.


(** The saved record of iteration [0] gets its improved output. *)
Lemma improved_output_witness :
  ∃ s', _handle_crew_training_output Probe.int_iteration
          {| output := "four"; final_text := "Final Answer: four" |} None Run.trained
        = (Ok tt, s')
        ∧ messages s' = messages Run.trained.
Proof.
  assert (Hagent : training_file Run.trained !! id (agent Probe.int_iteration)
                   = Some {[ VInt 0 := {[ "initial_output" := "4" ]} ]})
    by (vm_compute; reflexivity).
  assert (Hrecord : ({[ VInt 0 := {[ "initial_output" := "4" ]} ]}
                       : gmap PyVal (gmap string string)) !! key (VInt 0)
                    = Some {[ "initial_output" := "4" ]})
    by (vm_compute; reflexivity).
  destruct (proj1 (improved_output_updates_one_record Probe.int_iteration
              {| _train := true; _train_iteration := Some (VInt 0) |} (VInt 0)
              {| output := "four"; final_text := "Final Answer: four" |} None Run.trained
              {[ VInt 0 := {[ "initial_output" := "4" ]} ]}
              eq_refl eq_refl eq_refl Hagent)
              {[ "initial_output" := "4" ]} Hrecord)
    as (s' & Hrun & _ & _ & Hmsg & _).
  exists s'. split; [exact Hrun | exact Hmsg].
Defined.

(** Feedback first, improvement later. *)
Lemma feedback_then_improvement_witness :
  ∃ s1 s2,
    _handle_crew_training_output Probe.int_iteration
      {| output := "4"; final_text := "Final Answer: 4" |} (Some "shorter") Probe.pending
    = (Ok tt, s1)
    ∧ _handle_crew_training_output Probe.int_iteration
        {| output := "four"; final_text := "Final Answer: four" |} None
        (set_ask_for_human_input false s1)
      = (Ok tt, s2).
Proof.
  destruct (feedback_then_improvement Probe.int_iteration
              {| _train := true; _train_iteration := Some (VInt 0) |} (VInt 0)
              {| output := "4"; final_text := "Final Answer: 4" |}
              {| output := "four"; final_text := "Final Answer: four" |}
              "shorter" Probe.pending eq_refl eq_refl eq_refl eq_refl)
    as (s1 & s2 & _ & _ & H1 & H2 & _).
  exists s1, s2. split; [exact H1 | exact H2].
Defined.

(** A reply with an invented observation is cut before it. *)
Lemma repair_witness :
  use_stop_words Probe.without_stop_words = false
  ∧ parse Probe.careful Probe.mixed_reply = ParseError Probe.both_error
  ∧ repair Probe.careful Probe.without_stop_words Probe.mixed_reply = "Action: Calculator"
  ∧ PyStr.contains "Observation:"
      (repair Probe.careful Probe.without_stop_words Probe.mixed_reply) = false.
Proof.
  split; [reflexivity|]. split; [vm_compute; reflexivity|].
  destruct (proj1 (repair_cuts_at_first_observation Probe.careful
                     Probe.without_stop_words Probe.mixed_reply)
              eq_refl Probe.both_error) as (Hrepair & Hnone & _).
  - vm_compute. reflexivity.
  - vm_compute. reflexivity.
  - split; [rewrite Hrepair; vm_compute; reflexivity | exact Hnone].
Defined.
